(** * fabric.decorators: hosts, roles, runs_once, ensure_order, with_settings

    A shallow embedding of [fabric/decorators.py].  Python function
    objects live in a store; a function object carries its attribute
    dictionary ([__dict__]) and the code it runs when it is called.  The
    closures that the decorators of the module build ([attach_hosts],
    [inner_decorator], [decorated], [real_decorator], [outer], [inner]) are
    function objects whose code records the variables they captured.  The
    functions of a fabfile are function objects too; what their bodies do
    (act on the world, call function objects, the decorated ones among
    them, read and assign attributes) is given step by step. *)

From Stdlib Require Import ZArith.
From stdpp Require Import gmap strings list fin_maps.

Set Warnings "-register-all".

Open Scope string_scope.
Open Scope list_scope.

(** ** Python values *)

(** The values that reach the decorators: [None], booleans, integers,
    strings, lists, tuples, and references to function objects. *)
Inductive value : Type :=
| VNone
| VBool (b : bool)
| VInt (z : Z)
| VStr (s : string)
| VList (l : list value)
| VTuple (l : list value)
| VFun (f : nat).

(** [isinstance(v, StringTypes)] *)
Definition is_string (v : value) : bool :=
  match v with VStr _ => true | _ => false end.

(** [type(v) == type(real_decorator)]: [v] is a plain function. *)
Definition is_function (v : value) : bool :=
  match v with VFun _ => true | _ => false end.

(** Truth value of an object, as [if v:] tests it. *)
Definition truthy (v : value) : bool :=
  match v with
  | VNone => false
  | VBool b => b
  | VInt z => negb (z =? 0)%Z
  | VStr s => negb (String.eqb s "")
  | VList l | VTuple l => match l with [] => false | _ => true end
  | VFun _ => true
  end.

(** Python's [==] on these values: booleans compare as the integers 0 and
    1, sequences element by element, functions by identity. *)
Fixpoint py_eq (a b : value) {struct a} : bool :=
  let fix all2 (l1 l2 : list value) {struct l1} : bool :=
    match l1, l2 with
    | [], [] => true
    | x :: l1, y :: l2 => py_eq x y && all2 l1 l2
    | _, _ => false
    end in
  match a, b with
  | VNone, VNone => true
  | VBool x, VBool y => Bool.eqb x y
  | VBool x, VInt y | VInt y, VBool x => ((if x then 1 else 0) =? y)%Z
  | VInt x, VInt y => (x =? y)%Z
  | VStr x, VStr y => String.eqb x y
  | VList x, VList y => all2 x y
  | VTuple x, VTuple y => all2 x y
  | VFun x, VFun y => Nat.eqb x y
  | _, _ => false
  end.

Inductive exn : Type :=
| TypeError
| AttributeError
| Exception (payload : value).

(** How a computation ends: with a value or with a raised exception. *)
Inductive outcome (A : Type) : Type :=
| Return (a : A)
| Raise (e : exn).
Arguments Return {A} a.
Arguments Raise {A} e.

Section Decorators.

(** The part of the process the task bodies act on besides fabric's own
    configuration: the fabfile's globals, remote hosts, ... *)
Context {U : Type}.

(** Process-wide state seen by task bodies: fabric's [env] dictionary and
    the user's own state. *)
Record world : Type := World {
  env : gmap string value;
  user : U
}.

(** What the body of a function written with [def] in a fabfile does, step
    by step: it reads the world ([Look]) and replaces it ([Put]); it calls
    a function object, the wrapper a decorator made of the function itself
    among them, and goes on with the outcome, value or exception ([Call]);
    it reads, assigns and deletes attributes of function objects
    ([GetAttr], [SetAttr], [DelAttr]); it ends with a value or with an
    exception ([Done]). *)
Inductive prog : Type :=
| Done (o : outcome value)
| Look (k : world → prog)
| Put (w : world) (k : prog)
| Call (callee : value) (args : list value) (kwargs : gmap string value)
    (k : outcome value → prog)
| GetAttr (o : value) (name : string) (k : outcome value → prog)
| SetAttr (o : value) (name : string) (v : value) (k : outcome unit → prog)
| DelAttr (o : value) (name : string) (k : outcome unit → prog).

(** The body of a function written with [def] in a fabfile: what it does,
    from the positional and keyword arguments. *)
Definition body : Type := list value → gmap string value → prog.

(** The body that acts on the world only: it maps the arguments and the
    world to an outcome and a new world. *)
Definition on_world
    (t : list value → gmap string value → world → outcome value * world) : body :=
  λ args kwargs, Look (λ w, Put (t args kwargs w).2 (Done (t args kwargs w).1)).

(** Code of a function object.  [Def] is a function of the fabfile; the
    others are the closures of [decorators.py] with their captured
    variables. *)
Inductive code : Type :=
| Def (b : body)
| AttachHosts (host_list : list value)
| HostsInner (func : value)
| AttachRoles (role_list : list value)
| RolesInner (func : value)
| Decorated (func : value)
| RealDecorator (sorted : value)
| Outer (kw_settings : gmap string value)
| Inner (kw_settings : gmap string value) (func : value).

(** A function object: the attributes [functools.wraps] assigns
    ([__module__], [__name__], [__doc__]), the attribute dictionary
    [__dict__], and the code. *)
Record function : Type := Function {
  f_module : string;
  f_name : string;
  f_doc : value;
  f_dict : gmap string value;
  f_code : code
}.

(** One entry of the execution log: which [Def] body ran, on which
    arguments. *)
Definition call_record : Type := nat * list value * gmap string value.

(** The interpreter state: the store of function objects (a function is
    identified by its index), the world, and the log of the [Def] bodies
    executed so far, oldest first. *)
Record state : Type := State {
  heap : list function;
  globals : world;
  executed : list call_record
}.

(** ** Computations *)

(** A computation maps a state to an outcome and a new state; [None] means
    no result (the call depth bound was reached, or a reference dangles). *)
Definition M (A : Type) : Type := state → option (outcome A * state).

Definition ret {A} (a : A) : M A := λ s, Some (Return a, s).
Definition raise {A} (e : exn) : M A := λ s, Some (Raise e, s).
Definition bind {A B} (m : M A) (k : A → M B) : M B :=
  λ s, match m s with
       | None => None
       | Some (Return a, s') => k a s'
       | Some (Raise e, s') => Some (Raise e, s')
       end.

Notation "x ← m ; k" := (bind m (λ x, k))
  (at level 20, m at level 100, k at level 200, only parsing).
Notation "m ;; k" := (bind m (λ _, k))
  (at level 100, k at level 200, right associativity, only parsing).

Definition set_heap (h : list function) (s : state) : state :=
  {| heap := h; globals := globals s; executed := executed s |}.

Definition set_globals (w : world) (s : state) : state :=
  {| heap := heap s; globals := w; executed := executed s |}.

(** ** Function objects *)

(** The function object a [def] statement of [decorators.py] creates. *)
Definition new_function (name : string) (c : code) : function :=
  {| f_module := "fabric.decorators"; f_name := name; f_doc := VNone;
     f_dict := ∅; f_code := c |}.

(** [def name(...): ...]: a new function object, placed after the existing
    ones. *)
Definition def (name : string) (c : code) : M value :=
  λ s, Some (Return (VFun (length (heap s))),
             set_heap (heap s ++ [new_function name c]) s).

Definition set_dict (d : gmap string value) (fn : function) : function :=
  {| f_module := f_module fn; f_name := f_name fn; f_doc := f_doc fn;
     f_dict := d; f_code := f_code fn |}.

(** [hasattr(o, name)] for a name kept in [__dict__]. *)
Definition hasattr (o : value) (name : string) : M bool :=
  match o with
  | VFun f => λ s,
      match heap s !! f with
      | Some fn => Some (Return (bool_decide (is_Some (f_dict fn !! name))), s)
      | None => None
      end
  | _ => ret false
  end.

(** [o.name] *)
Definition getattr (o : value) (name : string) : M value :=
  match o with
  | VFun f => λ s,
      match heap s !! f with
      | Some fn =>
          match f_dict fn !! name with
          | Some v => Some (Return v, s)
          | None => Some (Raise AttributeError, s)
          end
      | None => None
      end
  | _ => raise AttributeError
  end.

(** [o.name = v]; the built-in values take no attributes. *)
Definition setattr (o : value) (name : string) (v : value) : M unit :=
  match o with
  | VFun f => λ s,
      match heap s !! f with
      | Some fn =>
          Some (Return tt,
                set_heap (<[f := set_dict (<[name := v]> (f_dict fn)) fn]> (heap s)) s)
      | None => None
      end
  | _ => raise AttributeError
  end.

(** [del o.name]: an [AttributeError] when [o] has no such attribute. *)
Definition delattr (o : value) (name : string) : M unit :=
  match o with
  | VFun f => λ s,
      match heap s !! f with
      | Some fn =>
          match f_dict fn !! name with
          | Some _ =>
              Some (Return tt,
                    set_heap (<[f := set_dict (delete name (f_dict fn)) fn]> (heap s)) s)
          | None => Some (Raise AttributeError, s)
          end
      | None => None
      end
  | _ => raise AttributeError
  end.

(** [functools.wraps(wrapped)(wrapper)] of Python's standard library:
    [__module__], [__name__] and [__doc__] of [wrapped] are assigned to
    [wrapper] (an [AttributeError] when [wrapped] is no function), then
    [wrapper.__dict__.update(wrapped.__dict__)]; [wrapper] is returned. *)
Definition update_wrapper (wrapper wrapped : value) : M value :=
  match wrapped, wrapper with
  | VFun f, VFun w => λ s,
      match heap s !! f, heap s !! w with
      | Some fn, Some wn =>
          Some (Return wrapper,
                set_heap (<[w := {| f_module := f_module fn;
                                    f_name := f_name fn;
                                    f_doc := f_doc fn;
                                    f_dict := f_dict fn ∪ f_dict wn;
                                    f_code := f_code wn |}]> (heap s)) s)
      | _, _ => None
      end
  | _, _ => raise AttributeError
  end.

(** The items that iterating over [v] yields; [None] when [v] is not
    iterable. *)
Definition iterate (v : value) : option (list value) :=
  match v with
  | VList l | VTuple l => Some l
  | VStr s =>
      Some ((λ c, VStr (String c EmptyString)) <$> String.list_ascii_of_string s)
  | _ => None
  end.

(** [list(v)] *)
Definition py_list (v : value) : M (list value) :=
  match iterate v with
  | Some l => ret l
  | None => raise TypeError
  end.

(** Binding of the arguments of a call to the single parameter [func]. *)
Definition bind_func (args : list value) (kwargs : gmap string value) : M value :=
  match args with
  | [] =>
      match kwargs !! "func" with
      | Some v => if decide (delete "func" kwargs = ∅) then ret v else raise TypeError
      | None => raise TypeError
      end
  | [v] => if decide (kwargs = ∅) then ret v else raise TypeError
  | _ => raise TypeError
  end.

(** ** hosts and roles *)

(** [attach_hosts(func)], the closure that [hosts] returns. *)
Definition attach_hosts (host_list : list value) (func : value) : M value :=
  inner_decorator ← def "inner_decorator" (HostsInner func);
  inner_decorator ← update_wrapper inner_decorator func;
  let _hosts := VTuple host_list in
  let _hosts :=
    if Nat.eqb (length host_list) 1 && negb (is_string (default VNone (host_list !! 0)))
    then default VNone (host_list !! 0)
    else _hosts in
  l ← py_list _hosts;
  setattr inner_decorator "hosts" (VList l);;
  ret inner_decorator.

Definition hosts (host_list : list value) : M value :=
  def "attach_hosts" (AttachHosts host_list).

(** [attach_roles(func)], the closure that [roles] returns. *)
Definition attach_roles (role_list : list value) (func : value) : M value :=
  inner_decorator ← def "inner_decorator" (RolesInner func);
  inner_decorator ← update_wrapper inner_decorator func;
  let _roles := VTuple role_list in
  let _roles :=
    if Nat.eqb (length role_list) 1 && negb (is_string (default VNone (role_list !! 0)))
    then default VNone (role_list !! 0)
    else _roles in
  l ← py_list _roles;
  setattr inner_decorator "roles" (VList l);;
  ret inner_decorator.

Definition roles (role_list : list value) : M value :=
  def "attach_roles" (AttachRoles role_list).

(** ** runs_once *)

(** Calls go through [caller]: the interpreter below, at some depth. *)
Definition caller : Type :=
  value → list value → gmap string value → M value.

(** The closure [decorated] of [runs_once]; [self] is the function
    object the name [decorated] is bound to, the closure itself. *)
Definition decorated (call : caller) (self func : value)
    (args : list value) (kwargs : gmap string value) : M value :=
  cached ← hasattr self "return_value";
  (if negb cached
   then r ← call func args kwargs; setattr self "return_value" r
   else ret tt);;
  getattr self "return_value".

Definition runs_once (func : value) : M value :=
  decorated ← def "decorated" (Decorated func);
  update_wrapper decorated func.

(** ** ensure_order *)

Definition real_decorator (sorted func : value) : M value :=
  setattr func "_sorted" sorted;;
  setattr func "_ensure_order" (VBool true);;
  ret func.

(** [ensure_order(sorted=False)]: [None] when the caller gives no
    argument. *)
Definition ensure_order (sorted : option value) : M value :=
  let sorted := default (VBool false) sorted in
  rd ← def "real_decorator" (RealDecorator sorted);
  if is_function sorted
  then real_decorator sorted sorted
  else (setattr rd "_ensure_order" (VBool true);; ret rd).

(** ** with_settings *)

(** A context manager: [__enter__] and [__exit__].  [T] is what the manager
    keeps from entry to exit; [__exit__] is told the exception in flight,
    if any, and answers whether to swallow it. *)
Record context_manager (T : Type) : Type := ContextManager {
  cm_enter : M T;
  cm_exit : T → option exn → M bool
}.
Arguments cm_enter {T} _.
Arguments cm_exit {T} _ _ _.

(** The [with] statement around a block that ends in [return]: the block
    runs after [__enter__], and [__exit__] runs however the block ends.
    An exception is raised again unless [__exit__] swallows it, in which
    case control goes on with [rest], the code after the statement. *)
Definition with_ {T A} (mgr : context_manager T) (block rest : M A) : M A :=
  t ← cm_enter mgr;
  λ s, match block s with
       | None => None
       | Some (Return a, s') => (cm_exit mgr t None;; ret a) s'
       | Some (Raise e, s') =>
           (swallow ← cm_exit mgr t (Some e);
            if swallow : bool then rest else raise e) s'
       end.

Definition set_env (e : gmap string value) (s : state) : state :=
  set_globals {| env := e; user := user (globals s) |} s.

(** Modelled from the spec: [fabric.context_managers.settings], which
    [decorators.py] imports, is not among the sources.  The spec gives its
    contract as the scoped-configuration primitive: on entry the named
    overrides are applied to the process-wide configuration; on exit, on
    every path, they are released, the overridden names being restored to
    their prior values; an exception of the block passes through.  A name
    that had no prior value has none again after the exit. *)
Definition settings (kw : gmap string value) : context_manager (gmap string value) :=
  {| cm_enter := λ s,
       let previous := env (globals s) in
       Some (Return previous, set_env (kw ∪ previous) s);
     cm_exit := λ previous _ s,
       Some (Return false,
             set_env ((previous ∩ kw) ∪ (env (globals s) ∖ kw)) s) |}.

(** The closure [inner] of [with_settings]; past the [with] statement the
    function ends, returning [None]. *)
Definition inner (call : caller) (kw_settings : gmap string value) (func : value)
    (args : list value) (kwargs : gmap string value) : M value :=
  with_ (settings kw_settings) (call func args kwargs) (ret VNone).

Definition outer (kw_settings : gmap string value) (func : value) : M value :=
  def "inner" (Inner kw_settings func).

Definition with_settings (kw_settings : gmap string value) : M value :=
  def "outer" (Outer kw_settings).

(** ** Calling a function object *)

(** The steps of a body, one after the other; its calls go through
    [call]. *)
Fixpoint run (call : caller) (p : prog) : M value :=
  match p with
  | Done o => λ s, Some (o, s)
  | Look k => λ s, run call (k (globals s)) s
  | Put w k => λ s, run call k (set_globals w s)
  | Call callee args kwargs k => λ s,
      match call callee args kwargs s with
      | Some (o, s') => run call (k o) s'
      | None => None
      end
  | GetAttr o name k => λ s,
      match getattr o name s with
      | Some (r, s') => run call (k r) s'
      | None => None
      end
  | SetAttr o name v k => λ s,
      match setattr o name v s with
      | Some (r, s') => run call (k r) s'
      | None => None
      end
  | DelAttr o name k => λ s,
      match delattr o name s with
      | Some (r, s') => run call (k r) s'
      | None => None
      end
  end.

(** A [Def] body is entered in the log, then it runs. *)
Definition run_body (call : caller) (f : nat) (b : body)
    (args : list value) (kwargs : gmap string value) : M value :=
  λ s, run call (b args kwargs)
         {| heap := heap s;
            globals := globals s;
            executed := executed s ++ [(f, args, kwargs)] |}.

(** The call of [callee] on [args] and [kwargs], with nested calls at most
    [depth] deep. *)
Fixpoint call (depth : nat) (callee : value)
    (args : list value) (kwargs : gmap string value) : M value :=
  match depth with
  | O => λ _, None
  | S depth =>
      match callee with
      | VFun f => λ s,
          match heap s !! f with
          | None => None
          | Some fn =>
              match f_code fn with
              | Def b => run_body (call depth) f b args kwargs s
              | AttachHosts host_list =>
                  (func ← bind_func args kwargs; attach_hosts host_list func) s
              | AttachRoles role_list =>
                  (func ← bind_func args kwargs; attach_roles role_list func) s
              | HostsInner func | RolesInner func =>
                  call depth func args kwargs s
              | Decorated func =>
                  decorated (call depth) callee func args kwargs s
              | RealDecorator sorted =>
                  (func ← bind_func args kwargs; real_decorator sorted func) s
              | Outer kw_settings =>
                  (func ← bind_func args kwargs; outer kw_settings func) s
              | Inner kw_settings func =>
                  inner (call depth) kw_settings func args kwargs s
              end
          end
      | _ => raise TypeError
      end
  end.

(** Application of a decorator to a function, as [@decorator] does it. *)
Definition decorate (depth : nat) (decorator : M value) (func : value) : M value :=
  d ← decorator; call depth d [func] ∅.

(** The attribute [name] of the function object [o], if it has one. *)
Definition attr (s : state) (o : value) (name : string) : option value :=
  match o with
  | VFun f => heap s !! f ≫= λ fn, f_dict fn !! name
  | _ => None
  end.

(** ** Notions used in the statements *)

(** What [attach_hosts] and [attach_roles] hand to [list]: the value of
    [_hosts] (of [_roles]) after the test on the single argument. *)
Definition entries (host_list : list value) : value :=
  if Nat.eqb (length host_list) 1
     && negb (is_string (default VNone (host_list !! 0)))
  then default VNone (host_list !! 0)
  else VTuple host_list.

(** The same in the words of the specification: exactly one positional
    argument that is not itself a string is the iterable to flatten;
    otherwise all positional arguments are the individual entries. *)
Definition entries_spec (host_list : list value) : value :=
  match host_list with
  | [x] => if is_string x then VTuple [x] else x
  | _ => VTuple host_list
  end.

(** From [s] to [s'] every function object stays, with its code. *)
Definition keeps (s s' : state) : Prop :=
  ∀ l fn, heap s !! l = Some fn →
    ∃ fn', heap s' !! l = Some fn' ∧ f_code fn' = f_code fn.

(** A store in which the bodies of the fabfile's functions act on the
    world only. *)
Definition acts_on_world (h : list function) : Prop :=
  ∀ l fn b, h !! l = Some fn → f_code fn = Def b → ∃ t, b = on_world t.

(** From [s] to [s'] every function object stays, with its code and with
    the value its [return_value] slot holds, if it holds one; the objects
    in [P] keep that slot as it is, also when it is empty. *)
Definition frame (P : nat → Prop) (s s' : state) : Prop :=
  ∀ l fn, heap s !! l = Some fn →
    ∃ fn', heap s' !! l = Some fn' ∧ f_code fn' = f_code fn
           ∧ (∀ v, f_dict fn !! "return_value" = Some v →
                   f_dict fn' !! "return_value" = Some v)
           ∧ (P l → f_dict fn' !! "return_value" = f_dict fn !! "return_value").

(** [s'] is a state after [s]: the function objects of [s] are still
    there, with their code and with what they cached. *)
Definition later (s s' : state) : Prop := frame (λ _, False) s s'.

(** [g] is a function that [runs_once] made from [func]. *)
Definition runs_once_of (s : state) (g : nat) (func : value) : Prop :=
  ∃ gn, heap s !! g = Some gn ∧ f_code gn = Decorated func.

End Decorators.

(** ** The decorators at work *)

Module Examples.

(** A task that increments the counter kept in the user's state and
    returns it. *)
Definition count_up : @body Z :=
  on_world (λ _ _ w,
    (Return (VInt (user w + 1)), {| env := env w; user := (user w + 1)%Z |})).

(** A task that raises until the counter reaches 2. *)
Definition flaky : @body Z :=
  on_world (λ _ _ w,
    (if (user w <? 2)%Z then Raise (Exception (VStr "not yet")) else Return (VInt (user w)),
     {| env := env w; user := (user w + 1)%Z |})).


(** A task that looks up the configured [warn_only] and increments the
    counter; called without arguments it returns what it found, called
    with arguments it raises it. *)
Definition read_warn_only : @body Z :=
  on_world (λ args _ w,
    (match args with
     | [] => Return (default VNone (env w !! "warn_only"))
     | _ => Raise (Exception (default VNone (env w !! "warn_only")))
     end,
     {| env := env w; user := (user w + 1)%Z |})).

(** A task [n] that increments the counter and returns 0 when [n] is 0;
    otherwise it calls the function at index 1, the [runs_once] wrapper
    that its own name is bound to once it is decorated, on [n - 1], and
    then returns [n], or raises when [fails]. *)
Definition countdown (fails : bool) : @body Z :=
  λ args _,
    Look (λ w, Put {| env := env w; user := (user w + 1)%Z |}
      match args with
      | [VInt n] =>
          if (n =? 0)%Z then Done (Return (VInt 0))
          else Call (VFun 1) [VInt (n - 1)] ∅
                 (λ r, match r with
                       | Raise e => Done (Raise e)
                       | Return _ =>
                           Done (if fails then Raise (Exception (VStr "failed"))
                                 else Return (VInt n))
                       end)
      | _ => Done (Raise TypeError)
      end).

(** The function object of a task written in a fabfile, with the
    attributes [d]. *)
Definition task_with (d : gmap string value) (b : @body Z) : @function Z :=
  {| f_module := "fabfile"; f_name := "task"; f_doc := VNone; f_dict := d;
     f_code := Def b |}.

Definition task (b : @body Z) : @function Z := task_with ∅ b.

(** The function object [runs_once] makes from the task at index 0. *)
Definition once (d : gmap string value) : @function Z :=
  {| f_module := "fabfile"; f_name := "task"; f_doc := VNone; f_dict := d;
     f_code := Decorated (VFun 0) |}.

(** A process with the function objects [fns], an empty configuration and
    the counter at [c]. *)
Definition process (fns : list (@function Z)) (c : Z)
    (log : list call_record) : @state Z :=
  {| heap := fns; globals := {| env := ∅; user := c |}; executed := log |}.

Definition start (fns : list (@function Z)) : @state Z := process fns 0 [].

End Examples.

(** ** Properties *)

Section Properties.

Context {U : Type}.
Implicit Types (s : @state U) (fn : @function U) (h : list (@function U)).
Implicit Types (b : @body U) (c : @code U) (v : value) (name : string).
Implicit Types (args : list value) (kwargs : gmap string value).

(** *** The store *)

Lemma lookup_new h fn : (h ++ [fn]) !! length h = Some fn.
Proof. by apply list_lookup_middle. Qed.

Lemma insert_new h fn fn' : <[length h := fn']> (h ++ [fn]) = h ++ [fn'].
Proof.
  replace (length h) with (length h + 0) by lia.
  by rewrite insert_app_r.
Qed.

Lemma lookup_old h fn i fi : h !! i = Some fi → (h ++ [fn]) !! i = Some fi.
Proof. apply lookup_app_l_Some. Qed.

Lemma bind_func_one v s : bind_func [v] ∅ s = Some (Return v, s).
Proof. unfold bind_func. by rewrite decide_True. Qed.

(** *** Stepping through computations *)

Lemma bind_ret_l {A B} (a : A) (k : A → @M U B) s : bind (ret a) k s = k a s.
Proof. reflexivity. Qed.

Lemma bind_bind {A B C} (m : @M U A) (k : A → @M U B) (k' : B → @M U C) s :
  bind (bind m k) k' s = bind m (λ a, bind (k a) k') s.
Proof. unfold bind. by destruct (m s) as [[[]]|]. Qed.

Lemma bind_return {A B} (m : @M U A) (k : A → @M U B) s a s' :
  m s = Some (Return a, s') → bind m k s = k a s'.
Proof. unfold bind. by intros ->. Qed.

Lemma bind_inv {A B} (m : @M U A) (k : A → @M U B) s o s' :
  bind m k s = Some (o, s') →
  (∃ a s1, m s = Some (Return a, s1) ∧ k a s1 = Some (o, s'))
  ∨ (∃ e, m s = Some (Raise e, s') ∧ o = Raise e).
Proof.
  unfold bind. destruct (m s) as [[[a|e] s1]|]; intros H; [|simplify_eq|done].
  - left. eauto.
  - right. eauto.
Qed.

Lemma bind_def {B} name c (k : value → @M U B) s :
  bind (def name c) k s
  = k (VFun (length (heap s))) (set_heap (heap s ++ [new_function name c]) s).
Proof. reflexivity. Qed.

Lemma bind_setattr {B} (k : unit → @M U B) s f fn name v :
  heap s !! f = Some fn →
  bind (setattr (VFun f) name v) k s
  = k tt (set_heap (<[f := set_dict (<[name := v]> (f_dict fn)) fn]> (heap s)) s).
Proof. unfold bind, setattr. by intros ->. Qed.

Lemma bind_hasattr {B} (k : bool → @M U B) s f fn name :
  heap s !! f = Some fn →
  bind (hasattr (VFun f) name) k s = k (bool_decide (is_Some (f_dict fn !! name))) s.
Proof. unfold bind, hasattr. by intros ->. Qed.

Lemma getattr_fun s f fn name :
  heap s !! f = Some fn →
  getattr (VFun f) name s
  = Some (match f_dict fn !! name with
          | Some v => Return v
          | None => Raise AttributeError
          end, s).
Proof. unfold getattr. intros ->. by destruct (f_dict fn !! name). Qed.

Lemma bind_update_wrapper {B} (k : value → @M U B) s w wn f fn :
  heap s !! f = Some fn → heap s !! w = Some wn →
  bind (update_wrapper (VFun w) (VFun f)) k s
  = k (VFun w)
      (set_heap (<[w := {| f_module := f_module fn; f_name := f_name fn;
                           f_doc := f_doc fn; f_dict := f_dict fn ∪ f_dict wn;
                           f_code := f_code wn |}]> (heap s)) s).
Proof. unfold bind, update_wrapper. by intros -> ->. Qed.

Lemma call_fun n s f fn args kwargs :
  heap s !! f = Some fn →
  call (S n) (VFun f) args kwargs s =
  match f_code fn with
  | Def b => run_body (call n) f b args kwargs s
  | AttachHosts host_list =>
      bind (bind_func args kwargs) (attach_hosts host_list) s
  | AttachRoles role_list =>
      bind (bind_func args kwargs) (attach_roles role_list) s
  | HostsInner func | RolesInner func => call n func args kwargs s
  | Decorated func => decorated (call n) (VFun f) func args kwargs s
  | RealDecorator sorted =>
      bind (bind_func args kwargs) (real_decorator sorted) s
  | Outer kw_settings => bind (bind_func args kwargs) (outer kw_settings) s
  | Inner kw_settings func => inner (call n) kw_settings func args kwargs s
  end.
Proof. simpl. by intros ->. Qed.

Lemma attr_dict s f fn name :
  heap s !! f = Some fn → attr s (VFun f) name = f_dict fn !! name.
Proof. unfold attr. by intros ->. Qed.

(** *** The decorators in closed form *)

Lemma real_decorator_fun sorted s f fn :
  heap s !! f = Some fn →
  real_decorator sorted (VFun f) s
  = Some (Return (VFun f),
          set_heap (<[f := set_dict (<["_ensure_order" := VBool true]>
                                       (<["_sorted" := sorted]> (f_dict fn))) fn]>
                      (heap s)) s).
Proof.
  intros Hf. unfold real_decorator.
  erewrite bind_setattr by done.
  erewrite bind_setattr
    by (apply list_lookup_insert_eq; eauto using lookup_lt_Some).
  cbn [set_heap heap ret]. by rewrite list_insert_insert_eq.
Qed.

Lemma ensure_order_value sorted s :
  is_function sorted = false →
  ensure_order (Some sorted) s
  = Some (Return (VFun (length (heap s))),
          set_heap (heap s ++ [set_dict {["_ensure_order" := VBool true]}
                                 (new_function "real_decorator" (RealDecorator sorted))]) s).
Proof.
  intros Hs. unfold ensure_order. rewrite bind_def.
  cbn [default from_option id]. rewrite Hs.
  erewrite bind_setattr by apply lookup_new.
  cbn [set_heap heap ret]. by rewrite insert_new.
Qed.

Lemma ensure_order_function s f fn :
  heap s !! f = Some fn →
  ensure_order (Some (VFun f)) s
  = Some (Return (VFun f),
          set_heap (<[f := set_dict (<["_ensure_order" := VBool true]>
                                       (<["_sorted" := VFun f]> (f_dict fn))) fn]>
                      (heap s ++ [new_function "real_decorator" (RealDecorator (VFun f))])) s).
Proof.
  intros Hf. unfold ensure_order. rewrite bind_def.
  cbn [default from_option id is_function].
  erewrite real_decorator_fun; [reflexivity|by apply lookup_old].
Qed.

(** *** States that keep what was cached *)

Lemma frame_refl P s : frame P s s.
Proof. intros l fn Hl. exists fn. by split_and!. Qed.

Lemma frame_trans P s1 s2 s3 : frame P s1 s2 → frame P s2 s3 → frame P s1 s3.
Proof.
  intros H12 H23 l fn Hl.
  destruct (H12 l fn Hl) as (fn2 & Hl2 & Hc2 & Hk2 & Hd2).
  destruct (H23 l fn2 Hl2) as (fn3 & Hl3 & Hc3 & Hk3 & Hd3).
  exists fn3. split_and!; [done|congruence|auto|].
  intros HP. rewrite Hd3, Hd2; auto.
Qed.

Lemma frame_mono (P Q : nat → Prop) s s' :
  (∀ l, P l → Q l) → frame Q s s' → frame P s s'.
Proof.
  intros HPQ H l fn Hl. destruct (H l fn Hl) as (fn' & ? & ? & ? & ?).
  exists fn'. split_and!; auto.
Qed.

Lemma frame_heap P s s' : heap s' = heap s → frame P s s'.
Proof. intros Hh l fn Hl. rewrite Hh. exists fn. by split_and!. Qed.

Lemma frame_app P s s' l' : heap s' = heap s ++ l' → frame P s s'.
Proof.
  intros Hh l fn Hl. rewrite Hh. exists fn.
  split_and!; [by apply lookup_app_l_Some|done..].
Qed.

(** Setting an attribute other than [return_value]. *)
Lemma setattr_frame P o name v s r s' :
  setattr o name v s = Some (r, s') → name ≠ "return_value" → frame P s s'.
Proof.
  intros Hs Hn. destruct o as [| | | | | |f];
    try (injection Hs as <- <-; apply frame_refl).
  unfold setattr in Hs. destruct (heap s !! f) as [fn|] eqn:Hf; [|done].
  injection Hs as <- <-. intros l fl Hl. cbn [heap set_heap].
  destruct (decide (f = l)) as [->|Hne].
  - rewrite list_lookup_insert_eq by eauto using lookup_lt_Some.
    simplify_eq. eexists. split; [done|]. cbn.
    rewrite lookup_insert_ne by done. by split_and!.
  - rewrite list_lookup_insert_ne by done. exists fl. by split_and!.
Qed.

(** Filling the slot [return_value] of [f], which was empty in [s]. *)
Lemma cache_write_frame P s s1 f fn v r s2 :
  frame P s s1 → heap s !! f = Some fn →
  f_dict fn !! "return_value" = None → ¬ P f →
  setattr (VFun f) "return_value" v s1 = Some (r, s2) →
  frame P s s2.
Proof.
  intros H Hf Hnone HP Hs l fl Hl.
  destruct (H l fl Hl) as (fl1 & Hl1 & Hc1 & Hk1 & Hd1).
  unfold setattr in Hs. destruct (heap s1 !! f) as [fn1|] eqn:Hf1; [|done].
  injection Hs as <- <-. cbn [heap set_heap].
  destruct (decide (f = l)) as [->|Hne].
  - rewrite list_lookup_insert_eq by eauto using lookup_lt_Some.
    simplify_eq. eexists. split; [done|]. cbn. split_and!; [done| |done].
    intros w Hw. by rewrite Hnone in Hw.
  - rewrite list_lookup_insert_ne by done. exists fl1. by split_and!.
Qed.

Lemma update_wrapper_new wrapped (o : outcome value) s s' x :
  update_wrapper (VFun (length (heap s))) wrapped (set_heap (heap s ++ [x]) s)
  = Some (o, s') →
  ∃ x', f_code x' = f_code x ∧ s' = set_heap (heap s ++ [x']) s
        ∧ ∀ w, o = Return w → w = VFun (length (heap s)).
Proof.
  unfold update_wrapper, raise.
  destruct wrapped as [| | | | | |f]; try (intros [= <- <-]; exists x; by split_and!).
  cbn [heap set_heap].
  destruct ((heap s ++ [x]) !! f); [|done]. rewrite lookup_new.
  intros [= <- <-]. rewrite insert_new. eexists. split_and!; [|done|congruence].
  done.
Qed.

Lemma setattr_new name v (o : outcome unit) s s0 s' x :
  setattr (VFun (length (heap s))) name v (set_heap (heap s ++ [x]) s0)
  = Some (o, s') →
  ∃ x', f_code x' = f_code x ∧ s' = set_heap (heap s ++ [x']) s0.
Proof.
  unfold setattr. cbn [heap set_heap]. rewrite lookup_new.
  intros [= <- <-]. rewrite insert_new. eexists. by split; [|reflexivity].
Qed.

Lemma py_list_state v (o : outcome (list value)) s s' :
  py_list v s = Some (o, s') → s' = s.
Proof. unfold py_list, ret, raise. destruct (iterate v); by intros [= <- <-]. Qed.

Lemma bind_func_state args kwargs (o : outcome value) s s' :
  bind_func args kwargs s = Some (o, s') → s' = s.
Proof.
  unfold bind_func, ret, raise. intros H.
  repeat case_match; by simplify_eq.
Qed.

Lemma attach_hosts_new host_list func (o : outcome value) s s' :
  attach_hosts host_list func s = Some (o, s') →
  ∃ x, f_code x = HostsInner func ∧ s' = set_heap (heap s ++ [x]) s.
Proof.
  unfold attach_hosts. rewrite bind_def. intros H.
  apply bind_inv in H as [(w & s1 & Hw & H)|(e & Hw & _)];
    apply update_wrapper_new in Hw as (x1 & Hx1 & -> & Hw); [|by eauto].
  rewrite (Hw w eq_refl) in H.
  apply bind_inv in H as [(l & s2 & Hl & H)|(e & Hl & _)];
    apply py_list_state in Hl as ->; [|by eauto].
  apply bind_inv in H as [([] & s3 & Hs & H)|(e & Hs & _)];
    apply setattr_new in Hs as (x2 & Hx2 & ->);
    [|by (exists x2; split; [rewrite Hx2, Hx1|])].
  injection H as <- <-. exists x2. by split; [rewrite Hx2, Hx1|].
Qed.

Lemma attach_roles_new role_list func (o : outcome value) s s' :
  attach_roles role_list func s = Some (o, s') →
  ∃ x, f_code x = RolesInner func ∧ s' = set_heap (heap s ++ [x]) s.
Proof.
  unfold attach_roles. rewrite bind_def. intros H.
  apply bind_inv in H as [(w & s1 & Hw & H)|(e & Hw & _)];
    apply update_wrapper_new in Hw as (x1 & Hx1 & -> & Hw); [|by eauto].
  rewrite (Hw w eq_refl) in H.
  apply bind_inv in H as [(l & s2 & Hl & H)|(e & Hl & _)];
    apply py_list_state in Hl as ->; [|by eauto].
  apply bind_inv in H as [([] & s3 & Hs & H)|(e & Hs & _)];
    apply setattr_new in Hs as (x2 & Hx2 & ->);
    [|by (exists x2; split; [rewrite Hx2, Hx1|])].
  injection H as <- <-. exists x2. by split; [rewrite Hx2, Hx1|].
Qed.

Lemma real_decorator_frame P sorted func (o : outcome value) s s' :
  real_decorator sorted func s = Some (o, s') → frame P s s'.
Proof.
  unfold real_decorator. intros H.
  apply bind_inv in H as [([] & s1 & H1 & H)|(e & H1 & _)];
    apply (setattr_frame P) in H1; [|done..].
  apply bind_inv in H as [([] & s2 & H2 & H)|(e & H2 & _)];
    apply (setattr_frame P) in H2; [|done|by eapply frame_trans|done].
  injection H as <- <-. by eapply frame_trans.
Qed.

Lemma inner_eq (call_ : @caller U) kw func args kwargs s :
  inner call_ kw func args kwargs s
  = match call_ func args kwargs (set_env (kw ∪ env (globals s)) s) with
    | Some (o, s') =>
        Some (o, set_env (env (globals s) ∩ kw ∪ env (globals s') ∖ kw) s')
    | None => None
    end.
Proof.
  unfold inner, with_. cbn.
  by destruct (call_ _ _ _ _) as [[[] ?]|].
Qed.

Lemma getattr_state o name (r : outcome value) s s' :
  getattr o name s = Some (r, s') → s' = s.
Proof.
  unfold getattr, raise. intros H.
  repeat case_match; by simplify_eq.
Qed.

(** *** What every call keeps *)

Lemma keeps_refl s : keeps s s.
Proof. intros l fn Hl. by exists fn. Qed.

Lemma keeps_trans s1 s2 s3 : keeps s1 s2 → keeps s2 s3 → keeps s1 s3.
Proof.
  intros H12 H23 l fn Hl.
  destruct (H12 l fn Hl) as (fn2 & Hl2 & Hc2).
  destruct (H23 l fn2 Hl2) as (fn3 & Hl3 & Hc3).
  exists fn3. split; [done|congruence].
Qed.

Lemma keeps_heap s s' : heap s' = heap s → keeps s s'.
Proof. intros Hh l fn Hl. rewrite Hh. by exists fn. Qed.

Lemma keeps_app s s' l' : heap s' = heap s ++ l' → keeps s s'.
Proof.
  intros Hh l fn Hl. rewrite Hh. exists fn.
  split; [by apply lookup_app_l_Some|done].
Qed.

Lemma frame_keeps P s s' : frame P s s' → keeps s s'.
Proof. intros H l fn Hl. destruct (H l fn Hl) as (fn' & ? & ? & _). eauto. Qed.

Lemma keeps_insert s f fn d :
  heap s !! f = Some fn →
  keeps s (set_heap (<[f := set_dict d fn]> (heap s)) s).
Proof.
  intros Hf l fl Hl. cbn [heap set_heap].
  destruct (decide (f = l)) as [->|Hne].
  - rewrite list_lookup_insert_eq by eauto using lookup_lt_Some.
    simplify_eq. by eexists.
  - rewrite list_lookup_insert_ne by done. by exists fl.
Qed.

Lemma setattr_keeps o name v s (r : outcome unit) s' :
  setattr o name v s = Some (r, s') → keeps s s'.
Proof.
  intros H. destruct o as [| | | | | |f];
    try (injection H as <- <-; apply keeps_refl).
  unfold setattr in H. destruct (heap s !! f) as [fn|] eqn:Hf; [|done].
  injection H as <- <-. by apply keeps_insert.
Qed.

Lemma delattr_keeps o name s (r : outcome unit) s' :
  delattr o name s = Some (r, s') → keeps s s'.
Proof.
  intros H. destruct o as [| | | | | |f];
    try (injection H as <- <-; apply keeps_refl).
  unfold delattr in H. destruct (heap s !! f) as [fn|] eqn:Hf; [|done].
  destruct (f_dict fn !! name); injection H as <- <-;
    [by apply keeps_insert|apply keeps_refl].
Qed.

(** The steps of a body keep every function object and its code when the
    calls it makes do. *)
Lemma run_keeps (call_ : @caller U) p :
  (∀ callee args kwargs s o s',
     call_ callee args kwargs s = Some (o, s') → keeps s s') →
  ∀ s o s', run call_ p s = Some (o, s') → keeps s s'.
Proof.
  intros Hcall.
  induction p as [o0|k IH|w k IH|callee args kwargs k IH|o0 name k IH
                 |o0 name v k IH|o0 name k IH];
    intros s o s' H; cbn [run] in H.
  - injection H as <- <-. apply keeps_refl.
  - by eapply IH.
  - eapply keeps_trans; [|by eapply IH]. by apply keeps_heap.
  - destruct (call_ callee args kwargs s) as [[r s1]|] eqn:Hr; [|done].
    eapply keeps_trans; [by eapply Hcall|by eapply IH].
  - destruct (getattr o0 name s) as [[r s1]|] eqn:Hr; [|done].
    apply getattr_state in Hr as ->. by eapply IH.
  - destruct (setattr o0 name v s) as [[r s1]|] eqn:Hr; [|done].
    eapply keeps_trans; [by eapply setattr_keeps|by eapply IH].
  - destruct (delattr o0 name s) as [[r s1]|] eqn:Hr; [|done].
    eapply keeps_trans; [by eapply delattr_keeps|by eapply IH].
Qed.

(** A call keeps every function object and its code, whatever the bodies
    that run in it do. *)
Lemma call_keeps n callee args kwargs s o s' :
  call n callee args kwargs s = Some (o, s') → keeps s s'.
Proof.
  revert callee args kwargs s o s'.
  induction n as [|n IH]; intros callee args kwargs s o s' H; [done|].
  destruct callee as [| | | | | |f];
    try (injection H as <- <-; apply keeps_refl).
  destruct (heap s !! f) as [fn|] eqn:Hf; [|by simpl in H; rewrite Hf in H].
  rewrite (call_fun _ _ _ _ _ _ Hf) in H.
  destruct (f_code fn) as [b|hl|func|rl|func|func|sorted|kw|kw func] eqn:Hc.
  - unfold run_body in H. eapply keeps_trans; [|by eapply run_keeps, H].
    by apply keeps_heap.
  - apply bind_inv in H as [(w & s1 & Hw & H)|(e & Hw & _)];
      apply bind_func_state in Hw as ->; [|apply keeps_refl].
    apply attach_hosts_new in H as (x & _ & ->). by eapply keeps_app.
  - by eapply IH.
  - apply bind_inv in H as [(w & s1 & Hw & H)|(e & Hw & _)];
      apply bind_func_state in Hw as ->; [|apply keeps_refl].
    apply attach_roles_new in H as (x & _ & ->). by eapply keeps_app.
  - by eapply IH.
  - unfold decorated in H. rewrite (bind_hasattr _ _ _ _ _ Hf) in H.
    destruct (negb _).
    + rewrite bind_bind in H.
      apply bind_inv in H as [(r & s1 & Hr & H)|(e & Hr & _)];
        apply IH in Hr; [|done].
      apply bind_inv in H as [([] & s2 & Hs & H)|(e & Hs & _)];
        apply setattr_keeps in Hs;
        [apply getattr_state in H as ->|]; by eapply keeps_trans.
    + rewrite bind_ret_l in H. apply getattr_state in H as ->. apply keeps_refl.
  - apply bind_inv in H as [(w & s1 & Hw & H)|(e & Hw & _)];
      apply bind_func_state in Hw as ->; [|apply keeps_refl].
    by eapply frame_keeps, (real_decorator_frame (λ _, False)).
  - apply bind_inv in H as [(w & s1 & Hw & H)|(e & Hw & _)];
      apply bind_func_state in Hw as ->; [|apply keeps_refl].
    injection H as <- <-. by eapply keeps_app.
  - rewrite inner_eq in H.
    destruct (call n func _ _ _) as [[o1 s1]|] eqn:Hr; [|done].
    injection H as <- <-. apply IH in Hr.
    eapply keeps_trans; [by apply keeps_heap|].
    eapply keeps_trans; [exact Hr|by apply keeps_heap].
Qed.

(** *** What a call among bodies that act on the world only keeps *)

Lemma run_on_world (call_ : @caller U) f t args kwargs s :
  run_body call_ f (on_world t) args kwargs s
  = Some ((t args kwargs (globals s)).1,
          {| heap := heap s;
             globals := (t args kwargs (globals s)).2;
             executed := executed s ++ [(f, args, kwargs)] |}).
Proof. reflexivity. Qed.

Lemma later_refl s : later s s.
Proof. apply frame_refl. Qed.

Lemma later_trans s1 s2 s3 : later s1 s2 → later s2 s3 → later s1 s3.
Proof. apply frame_trans. Qed.

(** In a store whose bodies act on the world only, a call leads to a
    later state: the only assignment to a slot [return_value] is the one
    of a [runs_once] wrapper that found its slot empty. *)
Lemma call_later n callee args kwargs s o s' :
  acts_on_world (heap s) →
  call n callee args kwargs s = Some (o, s') → later s s'.
Proof.
  revert callee args kwargs s o s'.
  induction n as [|n IH]; intros callee args kwargs s o s' Hw H; [done|].
  destruct callee as [| | | | | |f];
    try (injection H as <- <-; apply later_refl).
  destruct (heap s !! f) as [fn|] eqn:Hf; [|by simpl in H; rewrite Hf in H].
  rewrite (call_fun _ _ _ _ _ _ Hf) in H.
  destruct (f_code fn) as [b|hl|func|rl|func|func|sorted|kw|kw func] eqn:Hc.
  - destruct (Hw _ _ _ Hf Hc) as [t ->]. rewrite run_on_world in H.
    injection H as <- <-. by apply frame_heap.
  - apply bind_inv in H as [(w & s1 & Hb & H)|(e & Hb & _)];
      apply bind_func_state in Hb as ->; [|apply later_refl].
    apply attach_hosts_new in H as (x & _ & ->). by eapply frame_app.
  - by eapply IH.
  - apply bind_inv in H as [(w & s1 & Hb & H)|(e & Hb & _)];
      apply bind_func_state in Hb as ->; [|apply later_refl].
    apply attach_roles_new in H as (x & _ & ->). by eapply frame_app.
  - by eapply IH.
  - unfold decorated in H. rewrite (bind_hasattr _ _ _ _ _ Hf) in H.
    destruct (f_dict fn !! "return_value") as [w|] eqn:Hv.
    + rewrite bool_decide_true in H by eauto. cbn [negb] in H.
      rewrite bind_ret_l in H. apply getattr_state in H as ->. apply later_refl.
    + rewrite bool_decide_false in H by by intros []. cbn [negb] in H.
      rewrite bind_bind in H.
      apply bind_inv in H as [(r & s1 & Hr & H)|(e & Hr & _)];
        apply IH in Hr; [|done..].
      apply bind_inv in H as [([] & s2 & Hs & H)|(e & Hs & _)];
        [apply getattr_state in H as ->|];
        exact (cache_write_frame _ _ _ _ _ _ _ _ Hr Hf Hv (λ x, x) Hs).
  - apply bind_inv in H as [(w & s1 & Hb & H)|(e & Hb & _)];
      apply bind_func_state in Hb as ->; [|apply later_refl].
    by eapply real_decorator_frame.
  - apply bind_inv in H as [(w & s1 & Hb & H)|(e & Hb & _)];
      apply bind_func_state in Hb as ->; [|apply later_refl].
    injection H as <- <-. by eapply frame_app.
  - rewrite inner_eq in H.
    destruct (call n func _ _ _) as [[o1 s1]|] eqn:Hr; [|done].
    injection H as <- <-. apply IH in Hr; [|done].
    eapply later_trans; [by apply frame_heap|].
    eapply later_trans; [exact Hr|by apply frame_heap].
Qed.

Lemma later_keeps s s' : later s s' → keeps s s'.
Proof. apply frame_keeps. Qed.

Lemma later_lookup s s' l fn :
  later s s' → heap s !! l = Some fn →
  ∃ fn', heap s' !! l = Some fn' ∧ f_code fn' = f_code fn.
Proof. intros H Hl. destruct (H l fn Hl) as (fn' & ? & ? & _). eauto. Qed.

Lemma later_cached s s' l fn v :
  later s s' → heap s !! l = Some fn →
  f_dict fn !! "return_value" = Some v →
  ∃ fn', heap s' !! l = Some fn' ∧ f_code fn' = f_code fn
         ∧ f_dict fn' !! "return_value" = Some v.
Proof.
  intros H Hl Hv. destruct (H l fn Hl) as (fn' & ? & ? & Hk & _). eauto.
Qed.

(** A [def] statement leads to a later state, and so do [runs_once] and
    [ensure_order]. *)
Lemma def_later name c s (o : outcome value) s' :
  def name c s = Some (o, s') → later s s'.
Proof. intros [= <- <-]. by eapply frame_app. Qed.

Lemma runs_once_later func s (o : outcome value) s' :
  runs_once func s = Some (o, s') → later s s'.
Proof.
  unfold runs_once. rewrite bind_def. intros H.
  apply update_wrapper_new in H as (x & _ & -> & _). by eapply frame_app.
Qed.

Lemma ensure_order_later sorted s (o : outcome value) s' :
  ensure_order sorted s = Some (o, s') → later s s'.
Proof.
  unfold ensure_order. rewrite bind_def. intros H.
  apply later_trans
    with (set_heap (heap s ++ [new_function "real_decorator"
                                 (RealDecorator (default (VBool false) sorted))]) s);
    [by eapply frame_app|].
  destruct (is_function _).
  - by eapply real_decorator_frame.
  - apply bind_inv in H as [([] & s1 & H1 & H)|(e & H1 & _)];
      apply (setattr_frame (λ _, False)) in H1; [|done..].
    by injection H as <- <-.
Qed.

(** *** The decorators in closed form, continued *)

Lemma attach_hosts_fun host_list l s f fn :
  heap s !! f = Some fn →
  iterate (entries host_list) = Some l →
  attach_hosts host_list (VFun f) s
  = Some (Return (VFun (length (heap s))),
          set_heap (heap s ++ [{| f_module := f_module fn; f_name := f_name fn;
                                  f_doc := f_doc fn;
                                  f_dict := <["hosts" := VList l]> (f_dict fn);
                                  f_code := HostsInner (VFun f) |}]) s).
Proof.
  intros Hf Hl. unfold attach_hosts. rewrite bind_def.
  erewrite bind_update_wrapper; [|by apply lookup_old|by apply lookup_new].
  fold (entries host_list). unfold py_list. rewrite Hl, bind_ret_l.
  cbn [heap set_heap]. rewrite insert_new.
  erewrite bind_setattr by apply lookup_new.
  cbn [heap set_heap ret set_dict f_dict f_module f_name f_doc f_code new_function].
  by rewrite insert_new, (right_id_L ∅ (∪)).
Qed.

Lemma attach_roles_fun role_list l s f fn :
  heap s !! f = Some fn →
  iterate (entries role_list) = Some l →
  attach_roles role_list (VFun f) s
  = Some (Return (VFun (length (heap s))),
          set_heap (heap s ++ [{| f_module := f_module fn; f_name := f_name fn;
                                  f_doc := f_doc fn;
                                  f_dict := <["roles" := VList l]> (f_dict fn);
                                  f_code := RolesInner (VFun f) |}]) s).
Proof.
  intros Hf Hl. unfold attach_roles. rewrite bind_def.
  erewrite bind_update_wrapper; [|by apply lookup_old|by apply lookup_new].
  fold (entries role_list). unfold py_list. rewrite Hl, bind_ret_l.
  cbn [heap set_heap]. rewrite insert_new.
  erewrite bind_setattr by apply lookup_new.
  cbn [heap set_heap ret set_dict f_dict f_module f_name f_doc f_code new_function].
  by rewrite insert_new, (right_id_L ∅ (∪)).
Qed.

Lemma decorate_hosts n host_list l s f fn :
  heap s !! f = Some fn →
  iterate (entries host_list) = Some l →
  decorate (S n) (hosts host_list) (VFun f) s
  = Some (Return (VFun (S (length (heap s)))),
          set_heap (heap s ++ [new_function "attach_hosts" (AttachHosts host_list);
                               {| f_module := f_module fn; f_name := f_name fn;
                                  f_doc := f_doc fn;
                                  f_dict := <["hosts" := VList l]> (f_dict fn);
                                  f_code := HostsInner (VFun f) |}]) s).
Proof.
  intros Hf Hl. unfold decorate, hosts. rewrite bind_def.
  erewrite call_fun by apply lookup_new. cbn [f_code new_function].
  erewrite bind_return by apply bind_func_one.
  erewrite attach_hosts_fun; [|by apply lookup_old|done].
  cbn [heap set_heap]. rewrite length_app, Nat.add_1_r, <-app_assoc. done.
Qed.

Lemma decorate_roles n role_list l s f fn :
  heap s !! f = Some fn →
  iterate (entries role_list) = Some l →
  decorate (S n) (roles role_list) (VFun f) s
  = Some (Return (VFun (S (length (heap s)))),
          set_heap (heap s ++ [new_function "attach_roles" (AttachRoles role_list);
                               {| f_module := f_module fn; f_name := f_name fn;
                                  f_doc := f_doc fn;
                                  f_dict := <["roles" := VList l]> (f_dict fn);
                                  f_code := RolesInner (VFun f) |}]) s).
Proof.
  intros Hf Hl. unfold decorate, roles. rewrite bind_def.
  erewrite call_fun by apply lookup_new. cbn [f_code new_function].
  erewrite bind_return by apply bind_func_one.
  erewrite attach_roles_fun; [|by apply lookup_old|done].
  cbn [heap set_heap]. rewrite length_app, Nat.add_1_r, <-app_assoc. done.
Qed.

Lemma decorate_with_settings n kw func s :
  decorate (S n) (with_settings kw) func s
  = Some (Return (VFun (S (length (heap s)))),
          set_heap (heap s ++ [new_function "outer" (Outer kw);
                               new_function "inner" (Inner kw func)]) s).
Proof.
  unfold decorate, with_settings. rewrite bind_def.
  erewrite call_fun by apply lookup_new. cbn [f_code new_function].
  erewrite bind_return by apply bind_func_one.
  unfold outer, def.
  cbn [heap set_heap]. rewrite length_app, Nat.add_1_r, <-app_assoc. done.
Qed.

Lemma runs_once_fun s f fn :
  heap s !! f = Some fn →
  runs_once (VFun f) s
  = Some (Return (VFun (length (heap s))),
          set_heap (heap s ++ [{| f_module := f_module fn; f_name := f_name fn;
                                  f_doc := f_doc fn; f_dict := f_dict fn;
                                  f_code := Decorated (VFun f) |}]) s).
Proof.
  intros Hf. unfold runs_once. rewrite bind_def.
  unfold update_wrapper. cbn [heap set_heap].
  rewrite (lookup_old _ _ _ _ Hf), lookup_new, insert_new.
  cbn [f_dict f_code new_function]. by rewrite (right_id_L ∅ (∪)).
Qed.

Lemma entries_strings (L : list string) :
  entries (VStr <$> L) = VTuple (VStr <$> L).
Proof. by destruct L as [|x [|y L]]. Qed.

Lemma entries_refines host_list : entries host_list = entries_spec host_list.
Proof. destruct host_list as [|x [|y l]]; [done| |done]. by destruct x. Qed.

(** *** ensure_order *)

Lemma decorate_ensure_order n sorted s f fn :
  is_function sorted = false →
  heap s !! f = Some fn →
  decorate (S n) (ensure_order (Some sorted)) (VFun f) s
  = Some (Return (VFun f),
          set_heap (<[f := set_dict (<["_ensure_order" := VBool true]>
                                       (<["_sorted" := sorted]> (f_dict fn))) fn]>
                      (heap s ++ [set_dict {["_ensure_order" := VBool true]}
                                    (new_function "real_decorator"
                                       (RealDecorator sorted))])) s).
Proof.
  intros Hs Hf. unfold decorate.
  erewrite bind_return by by apply ensure_order_value.
  erewrite call_fun by apply lookup_new. cbn [f_code set_dict new_function].
  erewrite bind_return by apply bind_func_one.
  erewrite real_decorator_fun; [reflexivity|by apply lookup_old].
Qed.

(** C9: [ensure_order(sorted=True)] applied to a function [f] returns
    [f] itself, with [f._ensure_order == True] and [f._sorted == True];
    the code of [f], the world and the log of executed bodies are as
    before, so calling [f] behaves as it did. *)
Theorem ensure_order_sorted_true n s f fn :
  heap s !! f = Some fn →
  ∃ s' fn',
    decorate (S n) (ensure_order (Some (VBool true))) (VFun f) s
    = Some (Return (VFun f), s')
    ∧ attr s' (VFun f) "_ensure_order" = Some (VBool true)
    ∧ attr s' (VFun f) "_sorted" = Some (VBool true)
    ∧ heap s' !! f = Some fn' ∧ f_code fn' = f_code fn
    ∧ globals s' = globals s ∧ executed s' = executed s.
Proof.
  intros Hf. pose proof (lookup_lt_Some _ _ _ Hf) as Hlt.
  eexists _, _. split; [by apply decorate_ensure_order|].
  assert (f < length (heap s ++ [set_dict {["_ensure_order" := VBool true]}
            (new_function "real_decorator" (@RealDecorator U (VBool true)))]))
    by (rewrite length_app; lia).
  split_and!; [| |by apply list_lookup_insert_eq|done..].
  - unfold attr. cbn [heap set_heap]. rewrite list_lookup_insert_eq by done.
    apply lookup_insert_eq.
  - unfold attr. cbn [heap set_heap]. rewrite list_lookup_insert_eq by done.
    cbn. by rewrite lookup_insert_ne, lookup_insert_eq.
Qed.

(** Called without an argument and then applied, [ensure_order] stores
    the default [False] in [_sorted]. *)
Lemma ensure_order_default_sorted n s f fn :
  heap s !! f = Some fn →
  ∃ s',
    decorate (S n) (ensure_order None) (VFun f) s = Some (Return (VFun f), s')
    ∧ attr s' (VFun f) "_sorted" = Some (VBool false).
Proof.
  intros Hf. pose proof (lookup_lt_Some _ _ _ Hf) as Hlt.
  eexists. split.
  { change (ensure_order None) with (@ensure_order U (Some (VBool false))).
    by apply decorate_ensure_order. }
  unfold attr. cbn [heap set_heap].
  rewrite list_lookup_insert_eq by (rewrite length_app; lia).
  cbn. by rewrite lookup_insert_ne, lookup_insert_eq.
Qed.

(** C1: applied bare, [ensure_order] receives the function as its
    parameter [sorted]; it returns the function with [_ensure_order] set to
    [True] and with [_sorted] set to the function itself, which is not
    equal to [False] and is true when tested. *)
Theorem ensure_order_bare_sorted s f fn :
  heap s !! f = Some fn →
  ∃ s',
    ensure_order (Some (VFun f)) s = Some (Return (VFun f), s')
    ∧ attr s' (VFun f) "_ensure_order" = Some (VBool true)
    ∧ attr s' (VFun f) "_sorted" = Some (VFun f)
    ∧ py_eq (VFun f) (VBool false) = false
    ∧ truthy (VFun f) = true.
Proof.
  intros Hf. pose proof (lookup_lt_Some _ _ _ Hf) as Hlt.
  eexists. split; [by apply ensure_order_function|].
  assert (f < length (heap s ++ [new_function "real_decorator"
                                   (@RealDecorator U (VFun f))]))
    by (rewrite length_app; lia).
  split_and!; [| |done..].
  - unfold attr. cbn [heap set_heap]. rewrite list_lookup_insert_eq by done.
    apply lookup_insert_eq.
  - unfold attr. cbn [heap set_heap]. rewrite list_lookup_insert_eq by done.
    cbn. by rewrite lookup_insert_ne, lookup_insert_eq.
Qed.

(** *** hosts and roles *)

Lemma lookup_new2 h fn fn' : (h ++ [fn; fn']) !! S (length h) = Some fn'.
Proof.
  rewrite lookup_app_r by lia. by replace (S (length h) - length h) with 1 by lia.
Qed.

Lemma attr_new2 s h fn fn' name :
  attr (set_heap (h ++ [fn; fn']) s) (VFun (S (length h))) name = f_dict fn' !! name.
Proof. unfold attr. cbn [heap set_heap]. by rewrite lookup_new2. Qed.

(** C5: for every list of strings [L] and every function [f], the function
    that [hosts( *L)] makes from [f] has the attribute [hosts] equal to
    [list(L)], order and repetitions kept; likewise [roles( *L)] and the
    attribute [roles]. *)
Theorem hosts_roles_attach_list n s f fn (L : list string) :
  heap s !! f = Some fn →
  (∃ g s',
     decorate (S n) (hosts (VStr <$> L)) (VFun f) s = Some (Return g, s')
     ∧ attr s' g "hosts" = Some (VList (VStr <$> L)))
  ∧ (∃ g s',
       decorate (S n) (roles (VStr <$> L)) (VFun f) s = Some (Return g, s')
       ∧ attr s' g "roles" = Some (VList (VStr <$> L))).
Proof.
  intros Hf.
  assert (iterate (entries (VStr <$> L)) = Some (VStr <$> L)) as Hl
    by by rewrite entries_strings.
  split; eexists _, _.
  - split; [by apply decorate_hosts|]. rewrite attr_new2. apply lookup_insert_eq.
  - split; [by apply decorate_roles|]. rewrite attr_new2. apply lookup_insert_eq.
Qed.

(** C6: for every list of strings [L], [hosts(L)] and [hosts( *L)] make
    the same function object from [f], whose [hosts] is [list(L)].  In
    general the attribute is the list of what the specification's rule
    selects: the single argument that is not a string, flattened, or else
    the arguments themselves. *)
Theorem hosts_single_iterable n s f fn (L : list string) :
  heap s !! f = Some fn →
  (∃ g gn s1 s2,
     decorate (S n) (hosts [VList (VStr <$> L)]) (VFun f) s
     = Some (Return (VFun g), s1)
     ∧ decorate (S n) (hosts (VStr <$> L)) (VFun f) s
       = Some (Return (VFun g), s2)
     ∧ heap s1 !! g = Some gn ∧ heap s2 !! g = Some gn
     ∧ f_dict gn !! "hosts" = Some (VList (VStr <$> L)))
  ∧ (∀ host_list l,
       iterate (entries_spec host_list) = Some l →
       ∃ g s',
         decorate (S n) (hosts host_list) (VFun f) s = Some (Return g, s')
         ∧ attr s' g "hosts" = Some (VList l)).
Proof.
  intros Hf. split.
  - eexists _, _, _, _. split_and!.
    + by apply decorate_hosts.
    + apply decorate_hosts; [done|by rewrite entries_strings].
    + cbn [heap set_heap]. apply lookup_new2.
    + cbn [heap set_heap]. apply lookup_new2.
    + apply lookup_insert_eq.
  - intros host_list l Hl. rewrite <-entries_refines in Hl.
    eexists _, _. split; [by apply decorate_hosts|].
    rewrite attr_new2. apply lookup_insert_eq.
Qed.

Lemma call_wrapper n s g gn func args kwargs :
  heap s !! g = Some gn →
  f_code gn = HostsInner func ∨ f_code gn = RolesInner func →
  call (S n) (VFun g) args kwargs s = call n func args kwargs s.
Proof. intros Hg [Hc|Hc]; by rewrite (call_fun _ _ _ _ _ _ Hg), Hc. Qed.

Lemma call_def n s f fn b args kwargs :
  heap s !! f = Some fn → f_code fn = Def b →
  call (S n) (VFun f) args kwargs s = run_body (call n) f b args kwargs s.
Proof. intros Hf Hc. by rewrite (call_fun _ _ _ _ _ _ Hf), Hc. Qed.

Lemma wrapper_calls s g gn f fn :
  heap s !! g = Some gn →
  f_code gn = HostsInner (VFun f) ∨ f_code gn = RolesInner (VFun f) →
  heap s !! f = Some fn →
  (∀ s', later s s' → ∀ m args kwargs,
     call (S m) (VFun g) args kwargs s' = call m (VFun f) args kwargs s')
  ∧ (∀ b, f_code fn = Def b → ∀ s', later s s' → ∀ m args kwargs,
       call (S (S m)) (VFun g) args kwargs s'
       = run_body (call m) f b args kwargs s').
Proof.
  intros Hg Hc Hf.
  assert (∀ s', later s s' → ∀ m args kwargs,
    call (S m) (VFun g) args kwargs s' = call m (VFun f) args kwargs s') as Hcall.
  { intros s' Hs' m args kwargs.
    destruct (later_lookup _ _ _ _ Hs' Hg) as (gn' & Hg' & Hc').
    eapply call_wrapper; [done|]. by rewrite Hc'. }
  split; [done|]. intros b Hb s' Hs' m args kwargs. rewrite Hcall by done.
  destruct (later_lookup _ _ _ _ Hs' Hf) as (fn' & Hf' & Hc').
  eapply call_def; [done|congruence].
Qed.

(** C7, amended: [hosts] and [roles] return a new function object that
    carries the attribute and leave the original function object as it
    was; calling the new function, at any later time and with any
    arguments, is calling the original with them: the original body runs
    on the same arguments and its outcome is the outcome of the call. *)
Theorem hosts_roles_wrapper_calls_original n s f fn host_list l :
  heap s !! f = Some fn →
  iterate (entries host_list) = Some l →
  (∃ g s',
     decorate (S n) (hosts host_list) (VFun f) s = Some (Return (VFun g), s')
     ∧ g ≠ f ∧ heap s' !! f = Some fn
     ∧ attr s' (VFun g) "hosts" = Some (VList l)
     ∧ (∀ s'', later s' s'' → ∀ m args kwargs,
          call (S m) (VFun g) args kwargs s'' = call m (VFun f) args kwargs s'')
     ∧ (∀ b, f_code fn = Def b → ∀ s'', later s' s'' → ∀ m args kwargs,
          call (S (S m)) (VFun g) args kwargs s''
          = run_body (call m) f b args kwargs s''))
  ∧ (∃ g s',
       decorate (S n) (roles host_list) (VFun f) s = Some (Return (VFun g), s')
       ∧ g ≠ f ∧ heap s' !! f = Some fn
       ∧ attr s' (VFun g) "roles" = Some (VList l)
       ∧ (∀ s'', later s' s'' → ∀ m args kwargs,
            call (S m) (VFun g) args kwargs s'' = call m (VFun f) args kwargs s'')
       ∧ (∀ b, f_code fn = Def b → ∀ s'', later s' s'' → ∀ m args kwargs,
            call (S (S m)) (VFun g) args kwargs s''
            = run_body (call m) f b args kwargs s'')).
Proof.
  intros Hf Hl. pose proof (lookup_lt_Some _ _ _ Hf) as Hlt.
  split; eexists _, _.
  - split; [by apply decorate_hosts|].
    split_and!; [lia|by apply lookup_app_l_Some| |..].
    + rewrite attr_new2. apply lookup_insert_eq.
    + eapply wrapper_calls; [apply lookup_new2|by left|by apply lookup_app_l_Some].
    + eapply wrapper_calls; [apply lookup_new2|by left|by apply lookup_app_l_Some].
  - split; [by apply decorate_roles|].
    split_and!; [lia|by apply lookup_app_l_Some| |..].
    + rewrite attr_new2. apply lookup_insert_eq.
    + eapply wrapper_calls; [apply lookup_new2|by right|by apply lookup_app_l_Some].
    + eapply wrapper_calls; [apply lookup_new2|by right|by apply lookup_app_l_Some].
Qed.

(** C10: the function that [hosts] (or [roles]) makes from [f] has every
    attribute of [f] other than the one the decorator sets, so what an
    inner decorator attached stays; the function that [with_settings]
    makes from [f] has no attribute at all, whatever [f] carries. *)
Theorem metadata_under_stacking n s f fn :
  heap s !! f = Some fn →
  (∀ host_list l, iterate (entries host_list) = Some l →
     ∃ g s',
       decorate (S n) (hosts host_list) (VFun f) s = Some (Return g, s')
       ∧ ∀ name, name ≠ "hosts" → attr s' g name = f_dict fn !! name)
  ∧ (∀ role_list l, iterate (entries role_list) = Some l →
       ∃ g s',
         decorate (S n) (roles role_list) (VFun f) s = Some (Return g, s')
         ∧ ∀ name, name ≠ "roles" → attr s' g name = f_dict fn !! name)
  ∧ (∀ kw,
       ∃ g s',
         decorate (S n) (with_settings kw) (VFun f) s = Some (Return g, s')
         ∧ ∀ name, attr s' g name = None).
Proof.
  intros Hf. split_and!.
  - intros host_list l Hl. eexists _, _. split; [by apply decorate_hosts|].
    intros name Hname. rewrite attr_new2. by apply lookup_insert_ne.
  - intros role_list l Hl. eexists _, _. split; [by apply decorate_roles|].
    intros name Hname. rewrite attr_new2. by apply lookup_insert_ne.
  - intros kw. eexists _, _. split; [by apply decorate_with_settings|].
    intros name. rewrite attr_new2. apply lookup_empty.
Qed.

(** *** with_settings *)

Lemma settings_restore_overridden (kw e e2 : gmap string value) k :
  is_Some (kw !! k) → (e ∩ kw ∪ e2 ∖ kw) !! k = e !! k.
Proof.
  intros [v Hk].
  rewrite lookup_union, lookup_intersection, lookup_difference, Hk.
  by destruct (e !! k).
Qed.

Lemma settings_restore_other (kw e e2 : gmap string value) k :
  kw !! k = None → (e ∩ kw ∪ e2 ∖ kw) !! k = e2 !! k.
Proof.
  intros Hk.
  rewrite lookup_union, lookup_intersection, lookup_difference, Hk.
  destruct (e !! k), (e2 !! k); done.
Qed.

Lemma settings_restore_all (kw e : gmap string value) :
  e ∩ kw ∪ (kw ∪ e) ∖ kw = e.
Proof.
  apply map_eq. intros k. destruct (kw !! k) as [v|] eqn:Hk.
  - by rewrite settings_restore_overridden.
  - rewrite settings_restore_other by done. by apply lookup_union_r.
Qed.

(** C4: the function [g] that [with_settings( **kw)] makes from [func]
    calls [func], at any later time, with the overrides [kw] laid over the
    configuration [env]; however that call ends, with a value or with an
    exception, the call of [g] ends the same way, and afterwards every
    overridden name has the value it had before the call (none if it had
    none) while the other names are as [func] left them.  When [func]
    leaves the configuration alone, the configuration after the call is
    the one before it. *)
Theorem with_settings_scoped n s func kw :
  ∃ g s1,
    decorate (S n) (with_settings kw) func s = Some (Return (VFun g), s1)
    ∧ ∀ s', later s1 s' →
      ∀ m args kwargs o s2,
        call m func args kwargs (set_env (kw ∪ env (globals s')) s') = Some (o, s2) →
        (∀ k v, kw !! k = Some v →
           env (globals (set_env (kw ∪ env (globals s')) s')) !! k = Some v)
        ∧ ∃ s3,
            call (S m) (VFun g) args kwargs s' = Some (o, s3)
            ∧ heap s3 = heap s2 ∧ executed s3 = executed s2
            ∧ user (globals s3) = user (globals s2)
            ∧ (∀ k, is_Some (kw !! k) →
                 env (globals s3) !! k = env (globals s') !! k)
            ∧ (∀ k, kw !! k = None →
                 env (globals s3) !! k = env (globals s2) !! k)
            ∧ (env (globals s2) = kw ∪ env (globals s') →
                 env (globals s3) = env (globals s')).
Proof.
  eexists _, _. split; [apply decorate_with_settings|].
  intros s' Hs' m args kwargs o s2 Hcall. split.
  { intros k v Hk. cbn. by apply lookup_union_Some_l. }
  destruct (later_lookup _ _ (S (length (heap s))) _ Hs' (lookup_new2 _ _ _))
    as (gn & Hg & Hc).
  eexists. split.
  { rewrite (call_fun _ _ _ _ _ _ Hg), Hc. cbn [f_code new_function].
    by rewrite inner_eq, Hcall. }
  cbn. split_and!; [done..| | |].
  - intros k. apply settings_restore_overridden.
  - intros k. apply settings_restore_other.
  - intros ->. apply settings_restore_all.
Qed.

(** *** runs_once *)

Lemma decorated_hit n s g gn func v args kwargs :
  heap s !! g = Some gn → f_code gn = Decorated func →
  f_dict gn !! "return_value" = Some v →
  call (S n) (VFun g) args kwargs s = Some (Return v, s).
Proof.
  intros Hg Hc Hv. rewrite (call_fun _ _ _ _ _ _ Hg), Hc. unfold decorated.
  rewrite (bind_hasattr _ _ _ _ _ Hg), Hv, bool_decide_true by eauto.
  cbn [negb]. by rewrite bind_ret_l, (getattr_fun _ _ _ _ Hg), Hv.
Qed.

Lemma decorated_miss n s g gn func args kwargs :
  heap s !! g = Some gn → f_code gn = Decorated func →
  f_dict gn !! "return_value" = None →
  call (S n) (VFun g) args kwargs s
  = match call n func args kwargs s with
    | Some (Return v, s2) =>
        bind (setattr (VFun g) "return_value" v) (λ _, ret v) s2
    | r => r
    end.
Proof.
  intros Hg Hc Hv. rewrite (call_fun _ _ _ _ _ _ Hg), Hc. unfold decorated.
  rewrite (bind_hasattr _ _ _ _ _ Hg), Hv, bool_decide_false by by intros [].
  cbn [negb]. rewrite bind_bind.
  destruct (call n func args kwargs s) as [[[v|e] s2]|] eqn:Hcall;
    unfold bind at 1; rewrite Hcall; [|done..].
  destruct (call_keeps _ _ _ _ _ _ _ Hcall g gn Hg) as (gn2 & Hg2 & _).
  rewrite !(bind_setattr _ _ _ _ _ _ Hg2).
  erewrite getattr_fun
    by (cbn [heap set_heap]; apply list_lookup_insert_eq; eauto using lookup_lt_Some).
  cbn. by rewrite lookup_insert_eq.
Qed.

Lemma cache_set s g gn v :
  heap s !! g = Some gn →
  ∃ s',
    bind (setattr (VFun g) "return_value" v) (λ _, ret v) s = Some (Return v, s')
    ∧ globals s' = globals s ∧ executed s' = executed s
    ∧ attr s' (VFun g) "return_value" = Some v
    ∧ ∃ gn', heap s' !! g = Some gn' ∧ f_code gn' = f_code gn
             ∧ f_dict gn' !! "return_value" = Some v.
Proof.
  intros Hg. pose proof (lookup_lt_Some _ _ _ Hg) as Hlt.
  eexists. split; [rewrite (bind_setattr _ _ _ _ _ _ Hg); reflexivity|].
  split_and!; [done..| |].
  - unfold attr. cbn [heap set_heap]. rewrite list_lookup_insert_eq by done.
    apply lookup_insert_eq.
  - eexists. split; [by apply list_lookup_insert_eq|].
    split; [done|apply lookup_insert_eq].
Qed.

(** Once the slot of a [runs_once] wrapper holds [v], every call of the
    wrapper, at any later time, returns [v] and changes nothing. *)
Lemma cached_forever s g gn func v :
  heap s !! g = Some gn → f_code gn = Decorated func →
  f_dict gn !! "return_value" = Some v →
  ∀ s', later s s' → ∀ m args kwargs,
    call (S m) (VFun g) args kwargs s' = Some (Return v, s').
Proof.
  intros Hg Hc Hv s' Hs' m args kwargs.
  destruct (later_cached _ _ _ _ _ Hs' Hg Hv) as (gn' & Hg' & Hc' & Hv').
  apply decorated_hit with gn' func; [done|congruence|done].
Qed.

(** C3, amended: when the function that [runs_once] wrapped raises in a
    call of the wrapper that found the slot [return_value] empty, the call
    of the wrapper ends with that exception in the very state the function
    left: the wrapper stores nothing.  When the slot is still empty in
    that state, the next call of the wrapper calls the function again (and
    caches what it returns).  The slot is still empty whenever the body of
    the function acts on the world only, so that its run cannot have
    filled it. *)
Theorem runs_once_exception_not_cached s g func :
  runs_once_of s g func →
  attr s (VFun g) "return_value" = None →
  ∀ m args kwargs e s2,
    call m func args kwargs s = Some (Raise e, s2) →
    call (S m) (VFun g) args kwargs s = Some (Raise e, s2)
    ∧ runs_once_of s2 g func
    ∧ (attr s2 (VFun g) "return_value" = None →
       ∀ m' args' kwargs',
         call (S m') (VFun g) args' kwargs' s2
         = match call m' func args' kwargs' s2 with
           | Some (Return v, s3) =>
               bind (setattr (VFun g) "return_value" v) (λ _, ret v) s3
           | r => r
           end)
    ∧ (∀ f fn t,
         func = VFun f → heap s !! f = Some fn → f_code fn = Def (on_world t) →
         attr s2 (VFun g) "return_value" = None).
Proof.
  intros (gn & Hg & Hc) Hv m args kwargs e s2 Hcall.
  rewrite (attr_dict _ _ _ _ Hg) in Hv.
  destruct (call_keeps _ _ _ _ _ _ _ Hcall g gn Hg) as (gn2 & Hg2 & Hc2).
  rewrite Hc in Hc2.
  split_and!.
  - by rewrite (decorated_miss _ _ _ _ _ _ _ Hg Hc Hv), Hcall.
  - by exists gn2.
  - intros Hv2 m' args' kwargs'. rewrite (attr_dict _ _ _ _ Hg2) in Hv2.
    by apply decorated_miss with gn2.
  - intros f fn t -> Hf Hcf. destruct m as [|m]; [done|].
    rewrite (call_def _ _ _ _ _ _ _ Hf Hcf), run_on_world in Hcall.
    injection Hcall as _ <-. unfold attr. cbn [heap]. by rewrite Hg.
Qed.


(** X13: Let [f] carry no attribute [return_value] when [runs_once] wraps
    it.  The wrapper starts with an empty slot.  A call of the wrapper
    that finds the slot empty, when the call of [f] in it returns [v],
    returns [v] in the state that call of [f] left, with [v] in the slot
    (over whatever the run of [f] put there).  From then on every call of
    the wrapper in a later state, whatever its arguments, returns [v] and
    leaves the state as it is. *)
Theorem runs_once_runs_first_call_only s f fn :
  heap s !! f = Some fn →
  f_dict fn !! "return_value" = None →
  ∃ g s1,
    runs_once (VFun f) s = Some (Return (VFun g), s1)
    ∧ attr s1 (VFun g) "return_value" = None
    ∧ ∀ s', later s1 s' → attr s' (VFun g) "return_value" = None →
      ∀ m args kwargs v s2,
        call m (VFun f) args kwargs s' = Some (Return v, s2) →
        ∃ s3,
          call (S m) (VFun g) args kwargs s' = Some (Return v, s3)
          ∧ globals s3 = globals s2 ∧ executed s3 = executed s2
          ∧ attr s3 (VFun g) "return_value" = Some v
          ∧ ∀ s4, later s3 s4 → ∀ m' args' kwargs',
              call (S m') (VFun g) args' kwargs' s4 = Some (Return v, s4).
Proof.
  intros Hf Hv. eexists _, _. split; [by apply runs_once_fun|].
  split; [unfold attr; cbn [heap set_heap]; by rewrite lookup_new|].
  intros s' Hs' Hv' m args kwargs v s2 Hcall.
  destruct (later_lookup _ _ (length (heap s)) _ Hs' (lookup_new _ _))
    as (gn & Hg & Hc). cbn [f_code] in Hc.
  rewrite (attr_dict _ _ _ _ Hg) in Hv'.
  destruct (call_keeps _ _ _ _ _ _ _ Hcall _ _ Hg) as (gn2 & Hg2 & Hc2).
  destruct (cache_set _ _ _ v Hg2)
    as (s3 & Hs3 & Hgl & Hex & Hv3 & gn3 & Hg3 & Hc3 & Hd3).
  exists s3. split_and!; [|done..|].
  - by rewrite (decorated_miss _ _ _ _ _ _ _ Hg Hc Hv'), Hcall.
  - apply cached_forever with gn3 (VFun f); [done|congruence|done].
Qed.

End Properties.

(** ** The properties at work *)

Import Examples.

(** An instance of C9: a task decorated with [ensure_order(sorted=True)]. *)
Lemma ensure_order_sorted_true_witness :
  heap (start [task count_up]) !! 0 = Some (task count_up)
  ∧ ∃ s',
      decorate 1 (ensure_order (Some (VBool true))) (VFun 0) (start [task count_up])
      = Some (Return (VFun 0), s')
      ∧ attr s' (VFun 0) "_ensure_order" = Some (VBool true)
      ∧ attr s' (VFun 0) "_sorted" = Some (VBool true).
Proof.
  split; [reflexivity|].
  destruct (ensure_order_sorted_true 0 (start [task count_up]) 0 (task count_up)
              eq_refl) as (s' & fn' & H1 & H2 & H3 & _).
  exists s'. by split_and!.
Defined.

(** An instance of C1: a task decorated with the bare [ensure_order]. *)
Lemma ensure_order_bare_sorted_witness :
  heap (start [task count_up]) !! 0 = Some (task count_up)
  ∧ ∃ s',
      ensure_order (Some (VFun 0)) (start [task count_up])
      = Some (Return (VFun 0), s')
      ∧ attr s' (VFun 0) "_sorted" = Some (VFun 0)
      ∧ py_eq (VFun 0) (VBool false) = false.
Proof.
  split; [reflexivity|].
  destruct (ensure_order_bare_sorted (start [task count_up]) 0 (task count_up)
              eq_refl) as (s' & H1 & _ & H3 & H4 & _).
  exists s'. by split_and!.
Defined.

(** An instance of C5: three hosts, one of them twice. *)
Lemma hosts_roles_attach_list_witness :
  heap (start [task count_up]) !! 0 = Some (task count_up)
  ∧ (∃ g s',
       decorate 1 (hosts [VStr "a"; VStr "b"; VStr "a"]) (VFun 0)
         (start [task count_up]) = Some (Return g, s')
       ∧ attr s' g "hosts" = Some (VList [VStr "a"; VStr "b"; VStr "a"]))
  ∧ (∃ g s',
       decorate 1 (roles [VStr "a"; VStr "b"; VStr "a"]) (VFun 0)
         (start [task count_up]) = Some (Return g, s')
       ∧ attr s' g "roles" = Some (VList [VStr "a"; VStr "b"; VStr "a"])).
Proof.
  split; [reflexivity|].
  exact (hosts_roles_attach_list 0 (start [task count_up]) 0 (task count_up)
           ["a"; "b"; "a"] eq_refl).
Defined.

(** An instance of C6: [hosts(['a', 'b'])] and [hosts('a', 'b')]. *)
Lemma hosts_single_iterable_witness :
  heap (start [task count_up]) !! 0 = Some (task count_up)
  ∧ ∃ g gn s1 s2,
      decorate 1 (hosts [VList [VStr "a"; VStr "b"]]) (VFun 0)
        (start [task count_up]) = Some (Return (VFun g), s1)
      ∧ decorate 1 (hosts [VStr "a"; VStr "b"]) (VFun 0)
          (start [task count_up]) = Some (Return (VFun g), s2)
      ∧ heap s1 !! g = Some gn ∧ heap s2 !! g = Some gn
      ∧ f_dict gn !! "hosts" = Some (VList [VStr "a"; VStr "b"]).
Proof.
  split; [reflexivity|].
  exact (proj1 (hosts_single_iterable 0 (start [task count_up]) 0
                  (task count_up) ["a"; "b"] eq_refl)).
Defined.

(** Counterexample to C7 as stated: [hosts('a')] applied to the task at
    index 0 returns another function object, at index 2, and the task
    itself has no attribute [hosts] afterwards; likewise [roles]. *)
Lemma hosts_returns_new_function :
  (∃ s',
     decorate 1 (hosts [VStr "a"]) (VFun 0) (start [task count_up])
     = Some (Return (VFun 2), s')
     ∧ VFun 2 ≠ VFun 0
     ∧ attr s' (VFun 0) "hosts" = None
     ∧ attr s' (VFun 2) "hosts" = Some (VList [VStr "a"]))
  ∧ (∃ s',
       decorate 1 (roles [VStr "a"]) (VFun 0) (start [task count_up])
       = Some (Return (VFun 2), s')
       ∧ VFun 2 ≠ VFun 0
       ∧ attr s' (VFun 0) "roles" = None
       ∧ attr s' (VFun 2) "roles" = Some (VList [VStr "a"])).
Proof.
  split; eexists; (split; [vm_compute; reflexivity|]);
    split_and!; first [discriminate | reflexivity].
Qed.

(** An instance of C7 as amended: the function [hosts('a')] makes from the
    counting task counts when it is called. *)
Lemma hosts_roles_wrapper_calls_original_witness :
  heap (start [task count_up]) !! 0 = Some (task count_up)
  ∧ iterate (entries [VStr "a"]) = Some [VStr "a"]
  ∧ ∃ g s',
      decorate 1 (hosts [VStr "a"]) (VFun 0) (start [task count_up])
      = Some (Return (VFun g), s')
      ∧ g ≠ 0
      ∧ call 2 (VFun g) [VInt 5] ∅ s'
        = run_body (call 0) 0 count_up [VInt 5] ∅ s'.
Proof.
  split; [reflexivity|]. split; [reflexivity|].
  destruct (proj1 (hosts_roles_wrapper_calls_original 0 (start [task count_up]) 0
                     (task count_up) [VStr "a"] [VStr "a"] eq_refl eq_refl))
    as (g & s' & H1 & H2 & _ & _ & _ & H6).
  exists g, s'. split_and!; [done..|].
  apply (H6 count_up eq_refl s' (later_refl s')).
Defined.

(** An instance of C10: a task that carries [hosts] and [_ensure_order] keeps
    them under [roles] and loses them under [with_settings]. *)
Lemma metadata_under_stacking_witness :
  heap (start [task_with {["hosts" := VList [VStr "h"]; "_ensure_order" := VBool true]}
                 count_up]) !! 0
  = Some (task_with {["hosts" := VList [VStr "h"]; "_ensure_order" := VBool true]}
            count_up)
  ∧ iterate (entries [VStr "r"]) = Some [VStr "r"]
  ∧ (∃ g s',
       decorate 1 (roles [VStr "r"]) (VFun 0)
         (start [task_with {["hosts" := VList [VStr "h"];
                             "_ensure_order" := VBool true]} count_up])
       = Some (Return g, s')
       ∧ attr s' g "hosts" = Some (VList [VStr "h"])
       ∧ attr s' g "_ensure_order" = Some (VBool true))
  ∧ (∃ g s',
       decorate 1 (with_settings {["warn_only" := VBool true]}) (VFun 0)
         (start [task_with {["hosts" := VList [VStr "h"];
                             "_ensure_order" := VBool true]} count_up])
       = Some (Return g, s')
       ∧ attr s' g "hosts" = None
       ∧ attr s' g "_ensure_order" = None).
Proof.
  split; [reflexivity|]. split; [reflexivity|].
  destruct (metadata_under_stacking 0
              (start [task_with {["hosts" := VList [VStr "h"];
                                  "_ensure_order" := VBool true]} count_up])
              0 _ eq_refl) as (_ & Hroles & Hsettings).
  split.
  - destruct (Hroles [VStr "r"] [VStr "r"] eq_refl) as (g & s' & H1 & H2).
    exists g, s'. split; [done|].
    split; (rewrite H2; [reflexivity|discriminate]).
  - destruct (Hsettings {["warn_only" := VBool true]}) as (g & s' & H1 & H2).
    exists g, s'. by split_and!.
Defined.

(** An instance of C4: under [with_settings(warn_only=True)] the task finds
    [warn_only] set, whether it returns or raises, and the configuration
    is empty again after the call. *)
Lemma with_settings_scoped_witness :
  ∃ g s1,
    decorate 1 (with_settings {["warn_only" := VBool true]}) (VFun 0)
      (start [task read_warn_only]) = Some (Return (VFun g), s1)
    ∧ later s1 s1
    ∧ (∃ s3,
         call 2 (VFun g) [] ∅ s1 = Some (Return (VBool true), s3)
         ∧ env (globals s3) = ∅ ∧ user (globals s3) = 1%Z)
    ∧ (∃ s3,
         call 2 (VFun g) [VInt 0] ∅ s1 = Some (Raise (Exception (VBool true)), s3)
         ∧ env (globals s3) = ∅ ∧ user (globals s3) = 1%Z).
Proof.
  destruct (with_settings_scoped 0 (start [task read_warn_only]) (VFun 0)
              {["warn_only" := VBool true]}) as (g & s1 & Hd & H).
  exists g, s1. split; [done|]. split; [apply later_refl|].
  vm_compute in Hd. injection Hd as <- <-.
  split.
  - edestruct (H _ (later_refl _) 1 [] ∅) as (_ & s3 & Hc & _ & _ & Hu & _ & _ & He);
      [vm_compute; reflexivity|].
    exists s3. split; [done|]. split; [by apply He|by rewrite Hu].
  - edestruct (H _ (later_refl _) 1 [VInt 0] ∅)
      as (_ & s3 & Hc & _ & _ & Hu & _ & _ & He);
      [vm_compute; reflexivity|].
    exists s3. split; [done|]. split; [by apply He|by rewrite Hu].
Defined.

(** C2, where the code fails it: the counting task carries an attribute
    [return_value] (here 7) when [runs_once] wraps it.  The first call of
    the wrapper returns 7 and changes nothing: nothing was executed and
    the counter is still 0, although the task itself, called directly,
    counts and returns 1. *)
Lemma runs_once_preset_never_runs :
  runs_once (VFun 0) (start [task_with {["return_value" := VInt 7]} count_up])
  = Some (Return (VFun 1),
          process [task_with {["return_value" := VInt 7]} count_up;
                   once {["return_value" := VInt 7]}] 0 [])
  ∧ call 2 (VFun 1) [] ∅
      (process [task_with {["return_value" := VInt 7]} count_up;
                once {["return_value" := VInt 7]}] 0 [])
    = Some (Return (VInt 7),
            process [task_with {["return_value" := VInt 7]} count_up;
                     once {["return_value" := VInt 7]}] 0 [])
  ∧ call 2 (VFun 0) [] ∅
      (process [task_with {["return_value" := VInt 7]} count_up;
                once {["return_value" := VInt 7]}] 0 [])
    = Some (Return (VInt 1),
            process [task_with {["return_value" := VInt 7]} count_up;
                     once {["return_value" := VInt 7]}] 1 [(0, [], ∅)]).
Proof. split_and!; reflexivity. Qed.

(** A second input at which a body under [runs_once] runs more than once:
    a task that calls itself through its decorated name.  In the first
    call of the wrapper, on 1, the slot is still empty when the task calls
    the wrapper on 0, so the body runs again within that call: it is
    entered twice in the log and the counter is at 2.  The inner call, on
    0, caches 0 (second equation); the outer call replaces it by 1 when
    it returns. *)
Lemma runs_once_recursive_runs_twice :
  call 4 (VFun 1) [VInt 1] ∅ (start [task (countdown false); once ∅])
  = Some (Return (VInt 1),
          process [task (countdown false); once {["return_value" := VInt 1]}] 2
            [(0, [VInt 1], ∅); (0, [VInt 0], ∅)])
  ∧ call 3 (VFun 1) [VInt 0] ∅
      (process [task (countdown false); once ∅] 1 [(0, [VInt 1], ∅)])
    = Some (Return (VInt 0),
            process [task (countdown false); once {["return_value" := VInt 0]}] 2
              [(0, [VInt 1], ∅); (0, [VInt 0], ∅)]).
Proof. split; vm_compute; reflexivity. Qed.

(** An instance of X13: the counting task under [runs_once], called twice
    with different arguments. *)
Lemma runs_once_runs_first_call_only_witness :
  heap (start [task count_up]) !! 0 = Some (task count_up)
  ∧ f_dict (task count_up) !! "return_value" = None
  ∧ ∃ g s1,
      runs_once (VFun 0) (start [task count_up]) = Some (Return (VFun g), s1)
      ∧ ∃ s3,
          call 2 (VFun g) [VInt 1] ∅ s1 = Some (Return (VInt 1), s3)
          ∧ user (globals s3) = 1%Z
          ∧ executed s3 = [(0, [VInt 1], ∅)]
          ∧ call 2 (VFun g) [VInt 2] ∅ s3 = Some (Return (VInt 1), s3).
Proof.
  split; [reflexivity|]. split; [reflexivity|].
  destruct (runs_once_runs_first_call_only (start [task count_up]) 0
              (task count_up) eq_refl eq_refl) as (g & s1 & Hr & Hv & H).
  exists g, s1. split; [done|].
  vm_compute in Hr. injection Hr as <- <-.
  edestruct (H _ (later_refl _) eq_refl 1 [VInt 1] ∅)
    as (s3 & Hc & Hg & He & Hv3 & Hnext); [vm_compute; reflexivity|].
  exists s3. split_and!; [done|by rewrite Hg|by rewrite He|].
  apply Hnext, later_refl.
Defined.

(** Counterexample to C3 as stated: a task that calls itself through its
    decorated name and then raises.  The call of the task on 1 raises, and
    so does the call of the wrapper on 1; but the inner call of the
    wrapper, on 0, returned and cached 0, so the slot is set afterwards and
    the next call of the wrapper, on 7, returns 0 without executing the
    task again: state and log are as they were. *)
Lemma runs_once_recursive_raise_leaves_cache :
  runs_once_of (start [task (countdown true); once ∅]) 1 (VFun 0)
  ∧ attr (start [task (countdown true); once ∅]) (VFun 1) "return_value" = None
  ∧ call 3 (VFun 0) [VInt 1] ∅ (start [task (countdown true); once ∅])
    = Some (Raise (Exception (VStr "failed")),
            process [task (countdown true); once {["return_value" := VInt 0]}] 2
              [(0, [VInt 1], ∅); (0, [VInt 0], ∅)])
  ∧ call 4 (VFun 1) [VInt 1] ∅ (start [task (countdown true); once ∅])
    = Some (Raise (Exception (VStr "failed")),
            process [task (countdown true); once {["return_value" := VInt 0]}] 2
              [(0, [VInt 1], ∅); (0, [VInt 0], ∅)])
  ∧ attr (process [task (countdown true); once {["return_value" := VInt 0]}] 2
            [(0, [VInt 1], ∅); (0, [VInt 0], ∅)]) (VFun 1) "return_value"
    = Some (VInt 0)
  ∧ call 4 (VFun 1) [VInt 7] ∅
      (process [task (countdown true); once {["return_value" := VInt 0]}] 2
         [(0, [VInt 1], ∅); (0, [VInt 0], ∅)])
    = Some (Return (VInt 0),
            process [task (countdown true); once {["return_value" := VInt 0]}] 2
              [(0, [VInt 1], ∅); (0, [VInt 0], ∅)]).
Proof.
  split; [eexists; split; reflexivity|].
  split_and!; vm_compute; reflexivity.
Qed.

(** An instance of C3 as amended: the task that raises until the counter
    reaches 2, under [runs_once]. *)
Lemma runs_once_exception_not_cached_witness :
  runs_once_of (process [task flaky; once ∅] 0 []) 1 (VFun 0)
  ∧ attr (process [task flaky; once ∅] 0 []) (VFun 1) "return_value" = None
  ∧ call 1 (VFun 0) [] ∅ (process [task flaky; once ∅] 0 [])
    = Some (Raise (Exception (VStr "not yet")),
            process [task flaky; once ∅] 1 [(0, [], ∅)])
  ∧ call 2 (VFun 1) [] ∅ (process [task flaky; once ∅] 0 [])
    = Some (Raise (Exception (VStr "not yet")),
            process [task flaky; once ∅] 1 [(0, [], ∅)])
  ∧ attr (process [task flaky; once ∅] 1 [(0, [], ∅)]) (VFun 1) "return_value"
    = None
  ∧ call 2 (VFun 1) [] ∅ (process [task flaky; once ∅] 1 [(0, [], ∅)])
    = Some (Raise (Exception (VStr "not yet")),
            process [task flaky; once ∅] 2 [(0, [], ∅); (0, [], ∅)]).
Proof.
  assert (runs_once_of (process [task flaky; once ∅] 0 []) 1 (VFun 0)) as Hw
    by (eexists; split; reflexivity).
  split; [exact Hw|]. split; [reflexivity|]. split; [reflexivity|].
  destruct (runs_once_exception_not_cached (process [task flaky; once ∅] 0 []) 1
              (VFun 0) Hw eq_refl 1 [] ∅ _ _ eq_refl) as (H1 & _ & H3 & H4).
  split; [exact H1|].
  pose proof (H4 0 (task flaky) _ eq_refl eq_refl eq_refl) as Hv.
  split; [exact Hv|].
  rewrite (H3 Hv 1 [] ∅). reflexivity.
Defined.


(** ** Further properties of the decorators *)

Section Further.

Context {U : Type}.
Implicit Types (s : @state U) (fn : @function U) (h : list (@function U)).
Implicit Types (b : @body U) (c : @code U) (v : value) (name : string).
Implicit Types (args : list value) (kwargs : gmap string value).

(** *** What decorating adds *)

Lemma decorate_attach_inv n (d : @code U) name func s (o : outcome value) s' :
  decorate n (def name d) func s = Some (o, s') →
  ∃ m, n = S m
       ∧ call (S m) (VFun (length (heap s))) [func] ∅
           (set_heap (heap s ++ [new_function name d]) s) = Some (o, s').
Proof.
  unfold decorate. rewrite bind_def. destruct n as [|m]; [done|]. eauto.
Qed.

Lemma append_twice s x y s' :
  s' = set_heap (heap (set_heap (heap s ++ [x]) s) ++ [y]) (set_heap (heap s ++ [x]) s) →
  ∃ new, heap s' = heap s ++ new ∧ globals s' = globals s
         ∧ executed s' = executed s.
Proof.
  intros ->. exists [x; y]. cbn [heap set_heap globals executed].
  by rewrite <-app_assoc.
Qed.

(** X1: Applying [hosts], [roles], [runs_once] or [with_settings] to anything,
    whether it ends with a function or with an exception, only adds
    function objects: the objects that were there, the decorated function
    among them, are as they were, no body is executed and the world is
    untouched. *)
Theorem decorators_only_add_objects n s func (o : outcome value) s' :
  (∃ host_list, decorate n (hosts host_list) func s = Some (o, s'))
  ∨ (∃ role_list, decorate n (roles role_list) func s = Some (o, s'))
  ∨ runs_once func s = Some (o, s')
  ∨ (∃ kw, decorate n (with_settings kw) func s = Some (o, s')) →
  ∃ new,
    heap s' = heap s ++ new
    ∧ globals s' = globals s ∧ executed s' = executed s.
Proof.
  intros [[hl H]|[[rl H]|[H|[kw H]]]].
  - apply decorate_attach_inv in H as (m & -> & H).
    erewrite call_fun in H by apply lookup_new. cbn [f_code new_function] in H.
    erewrite bind_return in H by apply bind_func_one.
    apply attach_hosts_new in H as (x & _ & H). by eapply append_twice.
  - apply decorate_attach_inv in H as (m & -> & H).
    erewrite call_fun in H by apply lookup_new. cbn [f_code new_function] in H.
    erewrite bind_return in H by apply bind_func_one.
    apply attach_roles_new in H as (x & _ & H). by eapply append_twice.
  - unfold runs_once in H. rewrite bind_def in H.
    apply update_wrapper_new in H as (x & _ & -> & _). by exists [x].
  - apply decorate_attach_inv in H as (m & -> & H).
    erewrite call_fun in H by apply lookup_new. cbn [f_code new_function] in H.
    erewrite bind_return in H by apply bind_func_one.
    injection H as <- <-. by eapply append_twice.
Qed.

(** *** runs_once *)

(** X3: A function that already carries an attribute [return_value], such as a
    [runs_once] function that has run, is never called by the function
    [runs_once] makes from it: every call, at any later time, returns the
    inherited value and changes nothing. *)
Theorem runs_once_inherits_cache s f fn v :
  heap s !! f = Some fn →
  f_dict fn !! "return_value" = Some v →
  ∃ g s1,
    runs_once (VFun f) s = Some (Return (VFun g), s1)
    ∧ g ≠ f
    ∧ ∀ s', later s1 s' → ∀ m args kwargs,
        call (S m) (VFun g) args kwargs s' = Some (Return v, s').
Proof.
  intros Hf Hv. pose proof (lookup_lt_Some _ _ _ Hf) as Hlt.
  eexists _, _. split; [by apply runs_once_fun|]. split; [lia|].
  eapply cached_forever; [apply lookup_new|done..].
Qed.

(** X4: The function [runs_once] makes from [f] has the attributes of [f]
    (its [hosts], [roles], [_ensure_order], ...) and its [__name__],
    [__module__] and [__doc__]; [f] itself is not the function returned
    and stays as it was. *)
Theorem runs_once_keeps_metadata s f fn :
  heap s !! f = Some fn →
  ∃ g gn s1,
    runs_once (VFun f) s = Some (Return (VFun g), s1)
    ∧ heap s1 !! g = Some gn
    ∧ f_dict gn = f_dict fn
    ∧ f_name gn = f_name fn ∧ f_module gn = f_module fn ∧ f_doc gn = f_doc fn
    ∧ g ≠ f ∧ heap s1 !! f = Some fn.
Proof.
  intros Hf. pose proof (lookup_lt_Some _ _ _ Hf) as Hlt.
  eexists _, _, _. split; [by apply runs_once_fun|].
  split; [apply lookup_new|]. split_and!; [done..|lia|by apply lookup_old].
Qed.

Lemma cache_set_keeps s s1 g gn v :
  keeps s s1 → heap s !! g = Some gn →
  ∃ s2 gn2,
    bind (setattr (VFun g) "return_value" v) (λ _, ret v) s1 = Some (Return v, s2)
    ∧ keeps s s2
    ∧ globals s2 = globals s1 ∧ executed s2 = executed s1
    ∧ heap s2 !! g = Some gn2 ∧ f_code gn2 = f_code gn
    ∧ f_dict gn2 !! "return_value" = Some v.
Proof.
  intros Hl Hg.
  destruct (Hl _ _ Hg) as (gn1 & Hg1 & Hc1).
  destruct (cache_set _ _ _ v Hg1) as (s2 & Hs2 & Hgl & Hex & _ & gn2 & Hg2 & Hc2 & Hv2).
  exists s2, gn2. split_and!; [done| |done..|congruence|done].
  rewrite (bind_setattr _ _ _ _ _ _ Hg1) in Hs2. injection Hs2 as <-.
  eapply keeps_trans; [exact Hl|]. by apply keeps_insert.
Qed.

Lemma wrapper_over_runs_once s w wn g gn f :
  heap s !! w = Some wn →
  f_code wn = HostsInner (VFun g) ∨ f_code wn = RolesInner (VFun g) →
  heap s !! g = Some gn → f_code gn = Decorated (VFun f) →
  f_dict gn !! "return_value" = None →
  ∀ m args kwargs v s3,
    call m (VFun f) args kwargs s = Some (Return v, s3) →
    ∃ s4,
      call (S (S m)) (VFun w) args kwargs s = Some (Return v, s4)
      ∧ globals s4 = globals s3 ∧ executed s4 = executed s3
      ∧ ∀ s5, later s4 s5 → ∀ m' args' kwargs',
          call (S (S m')) (VFun w) args' kwargs' s5 = Some (Return v, s5).
Proof.
  intros Hw Hwc Hg Hc Hgv m args kwargs v s3 Hcall.
  destruct (cache_set_keeps _ _ _ _ v (call_keeps _ _ _ _ _ _ _ Hcall) Hg)
    as (s4 & gn4 & Hs4 & Hl4 & Hgl & Hex & Hg4 & Hc4 & Hv4).
  exists s4. split_and!; [|done..|].
  - rewrite (call_wrapper _ _ _ _ _ _ _ Hw Hwc).
    by rewrite (decorated_miss _ _ _ _ _ _ _ Hg Hc Hgv), Hcall.
  - intros s5 Hl5 m' args' kwargs'.
    destruct (keeps_trans _ _ _ Hl4 (later_keeps _ _ Hl5) _ _ Hw)
      as (wn5 & Hw5 & Hwc5).
    rewrite (call_wrapper _ _ _ wn5 (VFun g) _ _ Hw5) by (by rewrite Hwc5).
    apply cached_forever with s4 gn4 (VFun f); [done|by rewrite Hc4|done..].
Qed.

(** X5: Run-once behaviour shows through an outer [hosts]: for [f] without an
    attribute [return_value], the first call of [hosts(...)(runs_once(f))]
    in which [f] returns [v] returns [v], and every later call returns [v]
    and changes nothing. *)
Theorem hosts_over_runs_once n s f fn host_list l :
  heap s !! f = Some fn →
  f_dict fn !! "return_value" = None →
  iterate (entries host_list) = Some l →
  ∃ g s1 w s2,
    runs_once (VFun f) s = Some (Return (VFun g), s1)
    ∧ decorate (S n) (hosts host_list) (VFun g) s1 = Some (Return (VFun w), s2)
    ∧ attr s2 (VFun w) "hosts" = Some (VList l)
    ∧ ∀ m args kwargs v s3,
        call m (VFun f) args kwargs s2 = Some (Return v, s3) →
        ∃ s4,
          call (S (S m)) (VFun w) args kwargs s2 = Some (Return v, s4)
          ∧ globals s4 = globals s3 ∧ executed s4 = executed s3
          ∧ ∀ s5, later s4 s5 → ∀ m' args' kwargs',
              call (S (S m')) (VFun w) args' kwargs' s5 = Some (Return v, s5).
Proof.
  intros Hf Hv Hl.
  eexists _, _, _, _. split; [by apply runs_once_fun|].
  split; [apply decorate_hosts; [apply lookup_new|done]|].
  split; [rewrite attr_new2; apply lookup_insert_eq|].
  eapply wrapper_over_runs_once.
  - apply (lookup_new2 (heap s ++ [_])).
  - by left.
  - apply lookup_app_l_Some, lookup_new.
  - done.
  - done.
Qed.

(** *** hosts and roles at the edges *)

Lemma attach_hosts_not_iterable host_list s f fn :
  heap s !! f = Some fn →
  iterate (entries host_list) = None →
  attach_hosts host_list (VFun f) s
  = Some (Raise TypeError,
          set_heap (heap s ++ [{| f_module := f_module fn; f_name := f_name fn;
                                  f_doc := f_doc fn; f_dict := f_dict fn;
                                  f_code := HostsInner (VFun f) |}]) s).
Proof.
  intros Hf Hl. unfold attach_hosts. rewrite bind_def.
  erewrite bind_update_wrapper; [|by apply lookup_old|by apply lookup_new].
  fold (entries host_list). unfold py_list. rewrite Hl.
  cbn [heap set_heap bind raise f_dict f_code new_function].
  by rewrite insert_new, (right_id_L ∅ (∪)).
Qed.

Lemma attach_roles_not_iterable role_list s f fn :
  heap s !! f = Some fn →
  iterate (entries role_list) = None →
  attach_roles role_list (VFun f) s
  = Some (Raise TypeError,
          set_heap (heap s ++ [{| f_module := f_module fn; f_name := f_name fn;
                                  f_doc := f_doc fn; f_dict := f_dict fn;
                                  f_code := RolesInner (VFun f) |}]) s).
Proof.
  intros Hf Hl. unfold attach_roles. rewrite bind_def.
  erewrite bind_update_wrapper; [|by apply lookup_old|by apply lookup_new].
  fold (entries role_list). unfold py_list. rewrite Hl.
  cbn [heap set_heap bind raise f_dict f_code new_function].
  by rewrite insert_new, (right_id_L ∅ (∪)).
Qed.

Lemma entries_single x : is_string x = false → entries [x] = x.
Proof. unfold entries. cbn. by intros ->. Qed.

Lemma iterate_None_not_string x : iterate x = None → is_string x = false.
Proof. by destruct x. Qed.

(** X6: [hosts(x)] and [roles(x)] with a single argument that is neither a
    string nor iterable ([None], a number, a boolean, a function) are
    accepted, but applying the result to a function raises [TypeError]:
    no function is returned, and the function, the world and the log are
    untouched. *)
Theorem hosts_roles_not_iterable n s f fn x :
  heap s !! f = Some fn →
  iterate x = None →
  (∃ s',
     decorate (S n) (hosts [x]) (VFun f) s = Some (Raise TypeError, s')
     ∧ heap s' !! f = Some fn
     ∧ globals s' = globals s ∧ executed s' = executed s)
  ∧ (∃ s',
       decorate (S n) (roles [x]) (VFun f) s = Some (Raise TypeError, s')
       ∧ heap s' !! f = Some fn
       ∧ globals s' = globals s ∧ executed s' = executed s).
Proof.
  intros Hf Hx.
  assert (iterate (entries [x]) = None) as Hl
    by by rewrite entries_single by by apply iterate_None_not_string.
  split; eexists.
  - split.
    + unfold decorate, hosts. rewrite bind_def.
      erewrite call_fun by apply lookup_new. cbn [f_code new_function].
      erewrite bind_return by apply bind_func_one.
      apply attach_hosts_not_iterable; [by apply lookup_old|done].
    + cbn [heap set_heap globals executed].
      split; [by apply lookup_old, lookup_old|done].
  - split.
    + unfold decorate, roles. rewrite bind_def.
      erewrite call_fun by apply lookup_new. cbn [f_code new_function].
      erewrite bind_return by apply bind_func_one.
      apply attach_roles_not_iterable; [by apply lookup_old|done].
    + cbn [heap set_heap globals executed].
      split; [by apply lookup_old, lookup_old|done].
Qed.

Lemma wrapper_of_wrapper s w2 wn2 w1 wn1 f :
  heap s !! w2 = Some wn2 →
  f_code wn2 = HostsInner (VFun w1) ∨ f_code wn2 = RolesInner (VFun w1) →
  heap s !! w1 = Some wn1 →
  f_code wn1 = HostsInner (VFun f) ∨ f_code wn1 = RolesInner (VFun f) →
  ∀ s', later s s' → ∀ m args kwargs,
    call (S (S m)) (VFun w2) args kwargs s' = call m (VFun f) args kwargs s'.
Proof.
  intros H2 Hc2 H1 Hc1 s' Hl m args kwargs.
  destruct (later_lookup _ _ _ _ Hl H2) as (wn2' & H2' & Hc2').
  destruct (later_lookup _ _ _ _ Hl H1) as (wn1' & H1' & Hc1').
  rewrite (call_wrapper _ _ _ wn2' (VFun w1) _ _ H2') by (by rewrite Hc2').
  by rewrite (call_wrapper _ _ _ wn1' (VFun f) _ _ H1') by (by rewrite Hc1').
Qed.

(** X7: Decorating again replaces: [hosts( *A)] applied to what [hosts( *B)]
    made from [f] gives a function whose [hosts] is the list of [A] alone;
    the inner function keeps its [hosts], the list of [B], and a call of
    the outer function is a call of [f]. *)
Theorem hosts_redecorated_replaces n s f fn A B la lb :
  heap s !! f = Some fn →
  iterate (entries A) = Some la →
  iterate (entries B) = Some lb →
  ∃ w1 s1 w2 s2,
    decorate (S n) (hosts B) (VFun f) s = Some (Return (VFun w1), s1)
    ∧ decorate (S n) (hosts A) (VFun w1) s1 = Some (Return (VFun w2), s2)
    ∧ attr s2 (VFun w2) "hosts" = Some (VList la)
    ∧ attr s2 (VFun w1) "hosts" = Some (VList lb)
    ∧ ∀ s', later s2 s' → ∀ m args kwargs,
        call (S (S m)) (VFun w2) args kwargs s' = call m (VFun f) args kwargs s'.
Proof.
  intros Hf Ha Hb.
  eexists _, _, _, _. split; [by apply decorate_hosts|].
  split; [apply decorate_hosts; [apply lookup_new2|done]|].
  split; [rewrite attr_new2; cbn; apply lookup_insert_eq|].
  split.
  { unfold attr. cbn [heap set_heap].
    erewrite lookup_app_l_Some by apply lookup_new2. cbn. apply lookup_insert_eq. }
  eapply wrapper_of_wrapper.
  - apply (lookup_new2 (heap s ++ [_; _])).
  - by left.
  - apply lookup_app_l_Some, lookup_new2.
  - by left.
Qed.

(** *** ensure_order *)

Lemma lookup_insert_old h (x y : @function U) f l :
  l ≠ f → l < length h → (<[f := y]> (h ++ [x])) !! l = h !! l.
Proof.
  intros Hne Hlt. rewrite list_lookup_insert_ne by done. by apply lookup_app_l.
Qed.

(** X8: [ensure_order] changes the function it decorates in place and changes
    nothing else: the function returned is [f] itself with [_ensure_order]
    set to [True] and [_sorted] set to the argument as it was given (also
    when it is no boolean) or, in the bare form, to [f]; the other
    attributes of [f], its code and its names, every other function, the
    world and the log are as before. *)
Theorem ensure_order_touches_two_attributes n s f fn sorted :
  heap s !! f = Some fn →
  is_function sorted = false →
  (∃ s' fn',
     decorate (S n) (ensure_order (Some sorted)) (VFun f) s
     = Some (Return (VFun f), s')
     ∧ heap s' !! f = Some fn'
     ∧ f_dict fn' = <["_ensure_order" := VBool true]>
                      (<["_sorted" := sorted]> (f_dict fn))
     ∧ f_code fn' = f_code fn ∧ f_name fn' = f_name fn
     ∧ f_module fn' = f_module fn ∧ f_doc fn' = f_doc fn
     ∧ (∀ l, l ≠ f → l < length (heap s) → heap s' !! l = heap s !! l)
     ∧ globals s' = globals s ∧ executed s' = executed s)
  ∧ (∃ s' fn',
       ensure_order (Some (VFun f)) s = Some (Return (VFun f), s')
       ∧ heap s' !! f = Some fn'
       ∧ f_dict fn' = <["_ensure_order" := VBool true]>
                        (<["_sorted" := VFun f]> (f_dict fn))
       ∧ f_code fn' = f_code fn ∧ f_name fn' = f_name fn
       ∧ f_module fn' = f_module fn ∧ f_doc fn' = f_doc fn
       ∧ (∀ l, l ≠ f → l < length (heap s) → heap s' !! l = heap s !! l)
       ∧ globals s' = globals s ∧ executed s' = executed s).
Proof.
  intros Hf Hs. pose proof (lookup_lt_Some _ _ _ Hf) as Hlt.
  split; eexists _, _.
  - split; [by apply decorate_ensure_order|]. cbn [heap set_heap].
    split; [apply list_lookup_insert_eq; rewrite length_app; lia|].
    split_and!; [done..| |done|done].
    intros l Hne Hl. by apply lookup_insert_old.
  - split; [by apply ensure_order_function|]. cbn [heap set_heap].
    split; [apply list_lookup_insert_eq; rewrite length_app; lia|].
    split_and!; [done..| |done|done].
    intros l Hne Hl. by apply lookup_insert_old.
Qed.

(** X9: Called with its parameter, [ensure_order] touches no function yet: it
    returns a new function, the decorator, which itself carries
    [_ensure_order = True] and no [_sorted].  Applied to what is no
    function, the decorator raises [AttributeError] and leaves the
    existing functions, the world and the log alone. *)
Theorem ensure_order_decorator n s sorted x :
  is_function sorted = false →
  is_function x = false →
  ∃ d s1,
    ensure_order (Some sorted) s = Some (Return (VFun d), s1)
    ∧ heap s1 !! d = Some (set_dict {["_ensure_order" := VBool true]}
                             (new_function "real_decorator" (RealDecorator sorted)))
    ∧ attr s1 (VFun d) "_sorted" = None
    ∧ (∀ l fn, heap s !! l = Some fn → heap s1 !! l = Some fn)
    ∧ call (S n) (VFun d) [x] ∅ s1 = Some (Raise AttributeError, s1).
Proof.
  intros Hs Hx. eexists _, _. split; [by apply ensure_order_value|].
  cbn [heap set_heap]. split; [apply lookup_new|].
  split; [unfold attr; cbn [heap set_heap]; by rewrite lookup_new|].
  split; [intros l fn Hl; by apply lookup_old|].
  erewrite call_fun by apply lookup_new. cbn [f_code set_dict new_function].
  erewrite bind_return by apply bind_func_one.
  by destruct x.
Qed.

(** *** What the decorators accept *)

Lemma update_wrapper_not_function w x s :
  is_function x = false →
  update_wrapper (VFun w) x s = Some (@Raise value AttributeError, s).
Proof. by destruct x. Qed.

Lemma call_not_function n x args kwargs s :
  is_function x = false →
  call (S n) x args kwargs s = Some (@Raise value TypeError, s).
Proof. by destruct x. Qed.

(** X10: [hosts], [roles] and [runs_once] refuse what is no function when they
    are applied to it ([functools.wraps] reads its [__module__]):
    [AttributeError], at decoration time. *)
Theorem wrapping_decorators_reject_non_function n s x host_list :
  is_function x = false →
  (∃ s', decorate (S n) (hosts host_list) x s = Some (Raise AttributeError, s'))
  ∧ (∃ s', decorate (S n) (roles host_list) x s = Some (Raise AttributeError, s'))
  ∧ (∃ s', runs_once x s = Some (Raise AttributeError, s')).
Proof.
  intros Hx. split_and!; eexists.
  - unfold decorate, hosts. rewrite bind_def.
    erewrite call_fun by apply lookup_new. cbn [f_code new_function].
    erewrite bind_return by apply bind_func_one.
    unfold attach_hosts. rewrite bind_def.
    unfold bind. by rewrite update_wrapper_not_function.
  - unfold decorate, roles. rewrite bind_def.
    erewrite call_fun by apply lookup_new. cbn [f_code new_function].
    erewrite bind_return by apply bind_func_one.
    unfold attach_roles. rewrite bind_def.
    unfold bind. by rewrite update_wrapper_not_function.
  - unfold runs_once. rewrite bind_def.
    by rewrite update_wrapper_not_function.
Qed.

(** X11: [with_settings] does not look at what it decorates: applied to what is
    no function it returns a function all the same, and it is each call
    of that function that raises [TypeError], without running any body
    and without touching the function objects. *)
Theorem with_settings_accepts_non_callable n s x kw :
  is_function x = false →
  ∃ g s1,
    decorate (S n) (with_settings kw) x s = Some (Return (VFun g), s1)
    ∧ ∀ s', later s1 s' → ∀ m args kwargs,
        ∃ s3,
          call (S (S m)) (VFun g) args kwargs s' = Some (Raise TypeError, s3)
          ∧ heap s3 = heap s' ∧ executed s3 = executed s'
          ∧ user (globals s3) = user (globals s').
Proof.
  intros Hx. eexists _, _. split; [apply decorate_with_settings|].
  intros s' Hl m args kwargs.
  destruct (later_lookup _ _ _ _ Hl (lookup_new2 _ _ _)) as (gn & Hg & Hc).
  eexists. split.
  { rewrite (call_fun _ _ _ _ _ _ Hg), Hc. cbn [f_code new_function].
    by rewrite inner_eq, call_not_function. }
  done.
Qed.

(** X12: The functions [hosts] and [roles] make are presented as the function
    they wrap: they have its [__name__], [__module__] and [__doc__].  The
    function [with_settings] makes is called [inner], of module
    [fabric.decorators], and has no docstring, whatever it wraps. *)
Theorem wrappers_names n s f fn host_list l kw :
  heap s !! f = Some fn →
  iterate (entries host_list) = Some l →
  (∃ g gn s',
     decorate (S n) (hosts host_list) (VFun f) s = Some (Return (VFun g), s')
     ∧ heap s' !! g = Some gn
     ∧ f_name gn = f_name fn ∧ f_module gn = f_module fn ∧ f_doc gn = f_doc fn)
  ∧ (∃ g gn s',
       decorate (S n) (roles host_list) (VFun f) s = Some (Return (VFun g), s')
       ∧ heap s' !! g = Some gn
       ∧ f_name gn = f_name fn ∧ f_module gn = f_module fn ∧ f_doc gn = f_doc fn)
  ∧ (∃ g gn s',
       decorate (S n) (with_settings kw) (VFun f) s = Some (Return (VFun g), s')
       ∧ heap s' !! g = Some gn
       ∧ f_name gn = "inner" ∧ f_module gn = "fabric.decorators"
       ∧ f_doc gn = VNone).
Proof.
  intros Hf Hl. split_and!; eexists _, _, _.
  - split; [by apply decorate_hosts|]. split; [apply lookup_new2|done].
  - split; [by apply decorate_roles|]. split; [apply lookup_new2|done].
  - split; [by apply decorate_with_settings|]. split; [apply lookup_new2|done].
Qed.

End Further.

(** ** The further properties at work *)

(** Decorating the counting task with [hosts('a')]. *)
Lemma decorators_only_add_objects_witness :
  ∃ s',
    decorate 1 (hosts [VStr "a"]) (VFun 0) (start [task count_up])
    = Some (Return (VFun 2), s')
    ∧ ∃ new,
        heap s' = heap (start [task count_up]) ++ new
        ∧ globals s' = globals (start [task count_up])
        ∧ executed s' = executed (start [task count_up]).
Proof.
  eexists. split; [vm_compute; reflexivity|].
  apply (decorators_only_add_objects 1 (start [task count_up]) (VFun 0)
           (Return (VFun 2))).
  left. exists [VStr "a"]. vm_compute. reflexivity.
Defined.

(** [runs_once] applied to a [runs_once] function that has run. *)
Lemma runs_once_inherits_cache_witness :
  heap (process [task count_up; once {["return_value" := VInt 1]}] 1 []) !! 1
  = Some (once {["return_value" := VInt 1]})
  ∧ f_dict (once {["return_value" := VInt 1]}) !! "return_value" = Some (VInt 1)
  ∧ ∃ g s1,
      runs_once (VFun 1)
        (process [task count_up; once {["return_value" := VInt 1]}] 1 [])
      = Some (Return (VFun g), s1)
      ∧ call 1 (VFun g) [VInt 9] ∅ s1 = Some (Return (VInt 1), s1).
Proof.
  assert (f_dict (once {["return_value" := VInt 1]}) !! "return_value"
          = Some (VInt 1)) as Hv by reflexivity.
  split; [reflexivity|]. split; [exact Hv|].
  destruct (runs_once_inherits_cache
              (process [task count_up; once {["return_value" := VInt 1]}] 1 [])
              1 (once {["return_value" := VInt 1]}) (VInt 1) eq_refl Hv)
    as (g & s1 & Hr & _ & H).
  exists g, s1. split; [done|]. apply H, later_refl.
Defined.

(** [runs_once] applied to a task that carries [hosts]. *)
Lemma runs_once_keeps_metadata_witness :
  heap (start [task_with {["hosts" := VList [VStr "h"]]} count_up]) !! 0
  = Some (task_with {["hosts" := VList [VStr "h"]]} count_up)
  ∧ ∃ g s1,
      runs_once (VFun 0) (start [task_with {["hosts" := VList [VStr "h"]]} count_up])
      = Some (Return (VFun g), s1)
      ∧ attr s1 (VFun g) "hosts" = Some (VList [VStr "h"]).
Proof.
  split; [reflexivity|].
  destruct (runs_once_keeps_metadata
              (start [task_with {["hosts" := VList [VStr "h"]]} count_up])
              0 (task_with {["hosts" := VList [VStr "h"]]} count_up) eq_refl)
    as (g & gn & s1 & Hr & Hg & Hd & _).
  exists g, s1. split; [done|].
  unfold attr. rewrite Hg. cbn. by rewrite Hd.
Defined.

(** The counting task under [runs_once] under [hosts('a')], called
    twice. *)
Lemma hosts_over_runs_once_witness :
  heap (start [task count_up]) !! 0 = Some (task count_up)
  ∧ f_dict (task count_up) !! "return_value" = None
  ∧ iterate (entries [VStr "a"]) = Some [VStr "a"]
  ∧ ∃ g s1 w s2,
      runs_once (VFun 0) (start [task count_up]) = Some (Return (VFun g), s1)
      ∧ decorate 1 (hosts [VStr "a"]) (VFun g) s1 = Some (Return (VFun w), s2)
      ∧ ∃ s4,
          call 3 (VFun w) [VInt 1] ∅ s2 = Some (Return (VInt 1), s4)
          ∧ user (globals s4) = 1%Z
          ∧ call 3 (VFun w) [VInt 2] ∅ s4 = Some (Return (VInt 1), s4).
Proof.
  split; [reflexivity|]. split; [reflexivity|]. split; [reflexivity|].
  destruct (hosts_over_runs_once 0 (start [task count_up]) 0 (task count_up)
              [VStr "a"] [VStr "a"] eq_refl eq_refl eq_refl)
    as (g & s1 & w & s2 & Hr & Hd & _ & H).
  exists g, s1, w, s2. split; [done|]. split; [done|].
  vm_compute in Hr. injection Hr as <- <-.
  vm_compute in Hd. injection Hd as <- <-.
  edestruct (H 1 [VInt 1] ∅) as (s4 & Hc & Hg & _ & Hnext);
    [vm_compute; reflexivity|].
  exists s4. split_and!; [done|by rewrite Hg|]. apply Hnext, later_refl.
Defined.

(** [hosts(None)] and [roles(5)] applied to the counting task. *)
Lemma hosts_roles_not_iterable_witness :
  heap (start [task count_up]) !! 0 = Some (task count_up)
  ∧ iterate VNone = None
  ∧ ∃ s',
      decorate 1 (hosts [VNone]) (VFun 0) (start [task count_up])
      = Some (Raise TypeError, s')
      ∧ heap s' !! 0 = Some (task count_up).
Proof.
  split; [reflexivity|]. split; [reflexivity|].
  destruct (proj1 (hosts_roles_not_iterable 0 (start [task count_up]) 0
                     (task count_up) VNone eq_refl eq_refl))
    as (s' & H1 & H2 & _).
  by exists s'.
Defined.

(** [hosts('a')] over [hosts('b', 'c')]. *)
Lemma hosts_redecorated_replaces_witness :
  heap (start [task count_up]) !! 0 = Some (task count_up)
  ∧ iterate (entries [VStr "a"]) = Some [VStr "a"]
  ∧ iterate (entries [VStr "b"; VStr "c"]) = Some [VStr "b"; VStr "c"]
  ∧ ∃ w1 s1 w2 s2,
      decorate 1 (hosts [VStr "b"; VStr "c"]) (VFun 0) (start [task count_up])
      = Some (Return (VFun w1), s1)
      ∧ decorate 1 (hosts [VStr "a"]) (VFun w1) s1 = Some (Return (VFun w2), s2)
      ∧ attr s2 (VFun w2) "hosts" = Some (VList [VStr "a"])
      ∧ attr s2 (VFun w1) "hosts" = Some (VList [VStr "b"; VStr "c"]).
Proof.
  split; [reflexivity|]. split; [reflexivity|]. split; [reflexivity|].
  destruct (hosts_redecorated_replaces 0 (start [task count_up]) 0
              (task count_up) [VStr "a"] [VStr "b"; VStr "c"]
              [VStr "a"] [VStr "b"; VStr "c"] eq_refl eq_refl eq_refl)
    as (w1 & s1 & w2 & s2 & H1 & H2 & H3 & H4 & _).
  by exists w1, s1, w2, s2.
Defined.

(** [ensure_order(sorted='yes')] on a task that carries [hosts]. *)
Lemma ensure_order_touches_two_attributes_witness :
  heap (start [task_with {["hosts" := VList [VStr "h"]]} count_up]) !! 0
  = Some (task_with {["hosts" := VList [VStr "h"]]} count_up)
  ∧ is_function (VStr "yes") = false
  ∧ ∃ s',
      decorate 1 (ensure_order (Some (VStr "yes"))) (VFun 0)
        (start [task_with {["hosts" := VList [VStr "h"]]} count_up])
      = Some (Return (VFun 0), s')
      ∧ attr s' (VFun 0) "_sorted" = Some (VStr "yes")
      ∧ attr s' (VFun 0) "hosts" = Some (VList [VStr "h"]).
Proof.
  split; [reflexivity|]. split; [reflexivity|].
  destruct (proj1 (ensure_order_touches_two_attributes 0
                     (start [task_with {["hosts" := VList [VStr "h"]]} count_up])
                     0 (task_with {["hosts" := VList [VStr "h"]]} count_up)
                     (VStr "yes") eq_refl eq_refl))
    as (s' & fn' & H1 & H2 & H3 & _).
  exists s'. split; [done|]. unfold attr. rewrite H2. cbn. rewrite H3.
  split; reflexivity.
Defined.

(** [ensure_order(True)] and its decorator applied to a number. *)
Lemma ensure_order_decorator_witness :
  is_function (VBool true) = false
  ∧ is_function (VInt 5) = false
  ∧ ∃ d s1,
      ensure_order (Some (VBool true)) (start [task count_up])
      = Some (Return (VFun d), s1)
      ∧ attr s1 (VFun d) "_sorted" = None
      ∧ call 1 (VFun d) [VInt 5] ∅ s1 = Some (Raise AttributeError, s1).
Proof.
  split; [reflexivity|]. split; [reflexivity|].
  destruct (ensure_order_decorator 0 (start [task count_up]) (VBool true)
              (VInt 5) eq_refl eq_refl) as (d & s1 & H1 & _ & H3 & _ & H5).
  by exists d, s1.
Defined.

(** [hosts('a')] applied to [None]. *)
Lemma wrapping_decorators_reject_non_function_witness :
  is_function VNone = false
  ∧ ∃ s',
      decorate 1 (hosts [VStr "a"]) VNone (start [task count_up])
      = Some (Raise AttributeError, s').
Proof.
  split; [reflexivity|].
  exact (proj1 (wrapping_decorators_reject_non_function 0
                  (start [task count_up]) VNone [VStr "a"] eq_refl)).
Defined.

(** [with_settings(warn_only=True)] applied to [None], then called. *)
Lemma with_settings_accepts_non_callable_witness :
  is_function VNone = false
  ∧ ∃ g s1,
      decorate 1 (with_settings {["warn_only" := VBool true]}) VNone
        (start [task count_up]) = Some (Return (VFun g), s1)
      ∧ later s1 s1
      ∧ ∃ s3, call 2 (VFun g) [] ∅ s1 = Some (Raise TypeError, s3)
              ∧ executed s3 = executed s1.
Proof.
  split; [reflexivity|].
  destruct (with_settings_accepts_non_callable 0 (start [task count_up]) VNone
              {["warn_only" := VBool true]} eq_refl) as (g & s1 & H1 & H).
  exists g, s1. split; [done|]. split; [apply later_refl|].
  destruct (H s1 (later_refl s1) 0 [] ∅) as (s3 & Hc & _ & He & _).
  by exists s3.
Defined.

(** The names of the functions made from the counting task. *)
Lemma wrappers_names_witness :
  heap (start [task count_up]) !! 0 = Some (task count_up)
  ∧ iterate (entries [VStr "a"]) = Some [VStr "a"]
  ∧ (∃ g gn s',
       decorate 1 (hosts [VStr "a"]) (VFun 0) (start [task count_up])
       = Some (Return (VFun g), s')
       ∧ heap s' !! g = Some gn ∧ f_name gn = "task")
  ∧ (∃ g gn s',
       decorate 1 (with_settings {["warn_only" := VBool true]}) (VFun 0)
         (start [task count_up]) = Some (Return (VFun g), s')
       ∧ heap s' !! g = Some gn ∧ f_name gn = "inner").
Proof.
  split; [reflexivity|]. split; [reflexivity|].
  destruct (wrappers_names 0 (start [task count_up]) 0 (task count_up)
              [VStr "a"] [VStr "a"] {["warn_only" := VBool true]}
              eq_refl eq_refl) as (Hh & _ & Hs).
  split.
  - destruct Hh as (g & gn & s' & H1 & H2 & H3 & _). by exists g, gn, s'.
  - destruct Hs as (g & gn & s' & H1 & H2 & H3 & _). by exists g, gn, s'.
Defined.
